(** * Doodlelarious backend: the authentication and session-token routes

    A shallow embedding of [backend/models/User.js] (the Mongoose schema, its
    pre-save hook, [comparePassword] and [toJSON]) and of the authentication
    router (signup, login, refresh-token, logout), followed by the properties
    of the credential and token service.

    Conventions of the embedding.
    - A JavaScript string is a [string] of ASCII characters; [length] is the
      JavaScript [.length] on such strings.
    - The MongoDB collection is the list of its documents in insertion order;
      [findOne] returns the first document that matches.
    - Mongoose applies the setters of a schema path ([lowercase], [trim]) both
      when a document field is set and when a query filter on that path is
      cast (Mongoose 5 and later; the repository awaits [doc.populate(...)],
      which is the Mongoose 6+ interface).
    - [jsonwebtoken] and [bcryptjs] are libraries; they are parameters of the
      development.  [Date.now()], the salt produced by [bcrypt.genSalt] and
      the [ObjectId] drawn by [new User(...)] are inputs of each request
      ([Env]).  [jwt.sign] stamps [iat] with [Math.floor(Date.now() / 1000)],
      so the signer receives the clock in whole seconds.
    - [save()] validates the paths of a document that are required, set,
      loaded or defaulted: every path of a new document and of a document a
      query returned, whether or not the handler touched it; after a first
      save in the same request, the required paths and the paths set since.
    - Only the paths declared in the schema are modelled; the bookkeeping
      Mongoose adds on its own (version key, [createdAt]/[updatedAt] of the
      document, the TTL monitor of the server) is not.  What a [save()] does
      when another request has written since the document was read is
      therefore left open: the properties of interleaved requests hold for
      any behaviour of that save.
    - A route is modelled from the point where the middleware in front of it
      ([validateRequest], [authenticateToken]) has called [next()]. *)

From Stdlib Require Import String Ascii List ZArith NArith Bool Lia.
From Stdlib Require Import Permutation Sorted.
Import ListNotations.
Local Open Scope string_scope.
Set Warnings "-register-all".

(** ** JavaScript values *)

Module JS.

(** JSON values as they arrive in [req.body] and leave through [res.json]. *)
Inductive json : Type :=
| JNull
| JBool (b : bool)
| JNum (n : Z)
| JStr (s : string)
| JArr (items : list json)
| JObj (members : list (string * json)).

(** A property of [req.body]: [None] is [undefined] (the key is absent). *)
Definition value := option json.

(** [ToBoolean]: what [if (x)] and [!x] look at. *)
Definition truthy (v : value) : bool :=
  match v with
  | None => false
  | Some JNull => false
  | Some (JBool b) => b
  | Some (JNum n) => negb (n =? 0)%Z
  | Some (JStr s) => negb (s =? "")
  | Some (JArr _) => true
  | Some (JObj _) => true
  end.

(** [s === v] for a string [s]: only an equal string is strictly equal. *)
Definition strictEqStr (s : string) (v : value) : bool :=
  match v with
  | Some (JStr s') => s =? s'
  | _ => false
  end.

(** Plain objects: [obj.key] and [delete obj.key]. *)
Definition object := list (string * json).

Fixpoint get (k : string) (o : object) : option json :=
  match o with
  | [] => None
  | (k', v) :: o' => if k =? k' then Some v else get k o'
  end.

Definition delete (k : string) (o : object) : object :=
  filter (fun kv => negb (k =? fst kv)) o.

(** [String.prototype.toLowerCase] on ASCII. *)
Definition lowerChar (c : ascii) : ascii :=
  let n := nat_of_ascii c in
  if (65 <=? n)%nat && (n <=? 90)%nat then ascii_of_nat (n + 32) else c.

Fixpoint toLowerCase (s : string) : string :=
  match s with
  | EmptyString => EmptyString
  | String c s' => String (lowerChar c) (toLowerCase s')
  end.

(** [String.prototype.trim] on ASCII: space, tab, LF, VT, FF, CR. *)
Definition isSpace (c : ascii) : bool :=
  let n := nat_of_ascii c in
  (n =? 32)%nat || ((9 <=? n)%nat && (n <=? 13)%nat).

Fixpoint trimStart (s : string) : string :=
  match s with
  | EmptyString => EmptyString
  | String c s' => if isSpace c then trimStart s' else s
  end.

Fixpoint trimEnd (s : string) : string :=
  match s with
  | EmptyString => EmptyString
  | String c s' =>
      match trimEnd s' with
      | EmptyString => if isSpace c then EmptyString else String c EmptyString
      | t => String c t
      end
  end.

Definition trim (s : string) : string := trimEnd (trimStart s).

End JS.

(** ** Regular expressions (for the [match] validator of the schema) *)

Module RegExp.

Inductive regex : Type :=
| Void
| Eps
| Class (p : ascii -> bool)
| Seq (r s : regex)
| Alt (r s : regex)
| Star (r : regex).

Definition Plus (r : regex) : regex := Seq r (Star r).
Definition Opt (r : regex) : regex := Alt Eps r.
Definition Chr (c : ascii) : regex := Class (Ascii.eqb c).

Fixpoint nullable (r : regex) : bool :=
  match r with
  | Void => false
  | Eps => true
  | Class _ => false
  | Seq r s => nullable r && nullable s
  | Alt r s => nullable r || nullable s
  | Star _ => true
  end.

Definition seq (r s : regex) : regex :=
  match r with
  | Void => Void
  | Eps => s
  | _ => Seq r s
  end.

Definition alt (r s : regex) : regex :=
  match r, s with
  | Void, _ => s
  | _, Void => r
  | _, _ => Alt r s
  end.

(** Brzozowski derivative of [r] by the character [c]. *)
Fixpoint deriv (c : ascii) (r : regex) : regex :=
  match r with
  | Void => Void
  | Eps => Void
  | Class p => if p c then Eps else Void
  | Seq r s =>
      if nullable r then alt (seq (deriv c r) s) (deriv c s)
      else seq (deriv c r) s
  | Alt r s => alt (deriv c r) (deriv c s)
  | Star r => seq (deriv c r) (Star r)
  end.

(** [/^r$/.test(s)]. *)
Fixpoint test (r : regex) (s : string) : bool :=
  match s with
  | EmptyString => nullable r
  | String c s' => test (deriv c r) s'
  end.

(** [\w] is [[A-Za-z0-9_]]. *)
Definition isWord (c : ascii) : bool :=
  let n := nat_of_ascii c in
  ((65 <=? n) && (n <=? 90) || (97 <=? n) && (n <=? 122)
   || (48 <=? n) && (n <=? 57) || (n =? 95))%nat.

Definition w : regex := Class isWord.
Definition dotOrDash : regex := Class (fun c => Ascii.eqb c "." || Ascii.eqb c "-")%char.

End RegExp.

(** ** The account schema ([backend/models/User.js]) *)

Definition ObjectId := N.

Inductive Role : Type := RoleUser | RoleAdmin.

(** An element of [refreshTokens]: [{ token, createdAt }]. *)
Record RefreshToken : Type := mkRefreshToken {
  token : string;
  createdAt : Z
}.

(** An element of [watchlist] and of [favorites]. *)
Record ListItem : Type := mkListItem {
  contentId : string;
  contentType : string;
  addedAt : Z
}.

(** An element of [watchHistory]. *)
Record HistoryItem : Type := mkHistoryItem {
  historyContentId : string;
  historyContentType : string;
  progress : Z;
  lastWatched : Z;
  seasonNumber : option Z;
  episodeNumber : option Z
}.

Record Preferences : Type := mkPreferences {
  genres : list string;
  language : string;
  autoplay : bool
}.

(** The paths of [userSchema].  [password] is [None] once a handler has
    assigned [undefined] to it; a stored account always has [Some] hash. *)
Record User : Type := mkUser {
  _id : ObjectId;
  username : string;
  email : string;
  password : option string;
  firstName : string;
  lastName : string;
  profileImage : option string;
  role : Role;
  isActive : bool;
  refreshTokens : list RefreshToken;
  watchlist : list ListItem;
  favorites : list ListItem;
  watchHistory : list HistoryItem;
  preferences : Preferences;
  passwordResetToken : option string;
  passwordResetExpires : option Z
}.

Definition set_password (p : option string) (u : User) : User :=
  mkUser (_id u) (username u) (email u) p (firstName u) (lastName u)
    (profileImage u) (role u) (isActive u) (refreshTokens u) (watchlist u)
    (favorites u) (watchHistory u) (preferences u) (passwordResetToken u)
    (passwordResetExpires u).

Definition set_refreshTokens (l : list RefreshToken) (u : User) : User :=
  mkUser (_id u) (username u) (email u) (password u) (firstName u) (lastName u)
    (profileImage u) (role u) (isActive u) l (watchlist u)
    (favorites u) (watchHistory u) (preferences u) (passwordResetToken u)
    (passwordResetExpires u).

(** Every path of an account but [refreshTokens]. *)
Definition otherPaths (u : User) :=
  (_id u, username u, email u, password u, firstName u, lastName u,
   profileImage u, role u, isActive u, watchlist u, favorites u, watchHistory u,
   preferences u, passwordResetToken u, passwordResetExpires u).

(** The setters the schema declares: [trim: true] and [lowercase: true]. *)
Definition cast_username (s : string) : string := JS.trim s.
Definition cast_email (s : string) : string := JS.toLowerCase s.
Definition cast_name (s : string) : string := JS.trim s.

(** [/^\w+([.-]?\w+)*@\w+([.-]?\w+)*(\.\w{2,3})+$/] *)
Definition emailRegex : RegExp.regex :=
  let w := RegExp.w in
  let part := RegExp.Seq (RegExp.Plus w)
                (RegExp.Star (RegExp.Seq (RegExp.Opt RegExp.dotOrDash) (RegExp.Plus w))) in
  let tld := RegExp.Seq (RegExp.Chr ".") (RegExp.Seq w (RegExp.Seq w (RegExp.Opt w))) in
  RegExp.Seq part (RegExp.Seq (RegExp.Chr "@") (RegExp.Seq part (RegExp.Plus tld))).

(** The validators of each path: [required], [minlength], [maxlength],
    [match]. *)
Definition required (s : string) : bool := negb (s =? "").

Definition valid_username (u : User) : bool :=
  required (username u)
  && (3 <=? String.length (username u))%nat && (String.length (username u) <=? 30)%nat.

Definition valid_email (u : User) : bool :=
  required (email u) && RegExp.test emailRegex (email u).

Definition valid_password (u : User) : bool :=
  match password u with
  | Some p => required p && (6 <=? String.length p)%nat
  | None => false
  end.

Definition valid_firstName (u : User) : bool :=
  required (firstName u) && (String.length (firstName u) <=? 50)%nat.

Definition valid_lastName (u : User) : bool :=
  required (lastName u) && (String.length (lastName u) <=? 50)%nat.

(** The validators of the list elements: [enum: ['movie', 'tv']] and
    [min: 0], [max: 100]. *)
Definition isContentType (s : string) : bool := (s =? "movie") || (s =? "tv").

Definition valid_listItem (i : ListItem) : bool := isContentType (contentType i).

Definition valid_historyItem (h : HistoryItem) : bool :=
  isContentType (historyContentType h)
  && (0 <=? progress h)%Z && (progress h <=? 100)%Z.

Definition valid_watchlist (u : User) : bool := forallb valid_listItem (watchlist u).
Definition valid_favorites (u : User) : bool := forallb valid_listItem (favorites u).
Definition valid_watchHistory (u : User) : bool :=
  forallb valid_historyItem (watchHistory u).

(** The paths that carry validators, each with its check.  A list path
    stands for the paths of its elements. *)
Definition validators : list (string * (User -> bool)) :=
  [ ("username", valid_username); ("email", valid_email);
    ("password", valid_password); ("firstName", valid_firstName);
    ("lastName", valid_lastName); ("watchlist", valid_watchlist);
    ("favorites", valid_favorites); ("watchHistory", valid_watchHistory) ].

(** The paths declared [required]. *)
Definition requiredPaths : list string :=
  ["username"; "email"; "password"; "firstName"; "lastName"].

(** An account every path of which passes its validators. *)
Definition validAccount (u : User) : bool := forallb (fun pv => snd pv u) validators.

(** ** Documents and the collection *)

(** A Mongoose document in memory: its fields, whether it was ever saved,
    whether a query loaded it from the collection (its paths are then in
    the state [init]), and the paths set since it was loaded or saved
    ([isModified]). *)
Record Document : Type := mkDocument {
  fields : User;
  isNew : bool;
  loaded : bool;
  modifiedPaths : list string
}.

Definition isModified (path : string) (d : Document) : bool :=
  existsb (String.eqb path) (modifiedPaths d).

Definition markModified (path : string) (d : Document) : Document :=
  mkDocument (fields d) (isNew d) (loaded d)
    (if isModified path d then modifiedPaths d else path :: modifiedPaths d).

(** A document as a query returns it. *)
Definition hydrate (u : User) : Document := mkDocument u false true [].

(** A document built in the request, once its first [save()] has stored
    it: no path is modified and none was loaded. *)
Definition inserted (u : User) : Document := mkDocument u false false [].

(** [doc.password = v] *)
Definition assign_password (v : option string) (d : Document) : Document :=
  markModified "password"
    (mkDocument (set_password v (fields d)) (isNew d) (loaded d) (modifiedPaths d)).

(** [doc.refreshTokens = l] *)
Definition assign_refreshTokens (l : list RefreshToken) (d : Document) : Document :=
  markModified "refreshTokens"
    (mkDocument (set_refreshTokens l (fields d)) (isNew d) (loaded d)
       (modifiedPaths d)).

(** [doc.refreshTokens.push({ token: t })]; [createdAt] defaults to
    [Date.now]. *)
Definition push_refreshToken (t : string) (now : Z) (d : Document) : Document :=
  assign_refreshTokens (refreshTokens (fields d) ++ [mkRefreshToken t now]) d.

(** [new User({ username, email, password, firstName, lastName })]: the
    setters run, the other paths take their defaults. *)
Definition new_User (oid : ObjectId) (username email password firstName lastName : string)
  : Document :=
  mkDocument
    (mkUser oid (cast_username username) (cast_email email) (Some password)
       (cast_name firstName) (cast_name lastName)
       None RoleUser true [] [] [] [] (mkPreferences [] "en" true) None None)
    true false
    ["username"; "email"; "password"; "firstName"; "lastName"].

Definition Collection := list User.

(** [User.findById(id)] *)
Definition findById (id : ObjectId) (c : Collection) : option Document :=
  option_map hydrate (find (fun u => N.eqb (_id u) id) c).

(** [User.findOne({ email })]: the filter is cast by the schema. *)
Definition findOne_email (e : string) (c : Collection) : option Document :=
  option_map hydrate (find (fun u => email u =? cast_email e) c).

(** [User.findOne({ $or: [{ email }, { username }] })] *)
Definition findOne_email_or_username (e n : string) (c : Collection) : option Document :=
  option_map hydrate
    (find (fun u => (email u =? cast_email e) || (username u =? cast_username n)) c).

(** The unique indexes: [_id], [username] ([unique: true]), [email]
    ([unique: true]). *)
Definition duplicateKey (u : User) (c : Collection) : bool :=
  existsb (fun v => N.eqb (_id v) (_id u) || (username v =? username u)
                    || (email v =? email u)) c.

(** The write of [save()] for a document that is already stored. *)
Definition replaceById (u : User) (c : Collection) : Collection :=
  map (fun v => if N.eqb (_id v) (_id u) then u else v) c.

(** ** Requests, responses, errors *)

(** What a request reads from its surroundings. *)
Record Env : Type := mkEnv {
  now : Z;             (* Date.now(), in milliseconds *)
  salt : string;       (* what bcrypt.genSalt resolves to *)
  objectId : ObjectId  (* the _id drawn by new User(...) *)
}.

(** [process.env] *)
Record Config : Type := mkConfig {
  JWT_ACCESS_SECRET : string;
  JWT_ACCESS_EXPIRES_IN : string;
  JWT_REFRESH_SECRET : string;
  JWT_REFRESH_EXPIRES_IN : string
}.

(** What [jwt.verify] throws. *)
Inductive JwtError : Type :=
| JsonWebTokenError (message : string)
| TokenExpiredError
| NotBeforeError.

(** The exceptions a handler can meet; each reaches [next(error)]. *)
Inductive Error : Type :=
| Jwt (e : JwtError)
| ValidationError (paths : list string)
| DuplicateKeyError
| IllegalArguments.

Inductive result (E A : Type) : Type :=
| Ok (a : A)
| Throw (e : E).
Arguments Ok {E A} a.
Arguments Throw {E A} e.

Inductive Body : Type :=
| Message (message : string)
| Session (message : string) (user : JS.object) (accessToken refreshToken : string)
| Tokens (accessToken refreshToken : string).

(** How a handler ends: [res.status(s).json(b)] or [next(error)]. *)
Inductive Outcome : Type :=
| Respond (status : nat) (body : Body)
| Next (error : Error).

(** The bodies the validation middleware lets through. *)
Module Signup.
Record body : Type := mkBody {
  username : string;
  email : string;
  password : string;
  firstName : string;
  lastName : string
}.
End Signup.

Module Login.
Record body : Type := mkBody {
  email : string;
  password : string
}.
End Login.

(** ** Serialisation ([toObject], [toJSON]) *)

Definition json_of_role (r : Role) : JS.json :=
  match r with
  | RoleUser => JS.JStr "user"
  | RoleAdmin => JS.JStr "admin"
  end.

Definition json_of_nullable (o : option string) : JS.json :=
  match o with
  | Some s => JS.JStr s
  | None => JS.JNull
  end.

Definition json_of_refreshToken (t : RefreshToken) : JS.json :=
  JS.JObj [("token", JS.JStr (token t)); ("createdAt", JS.JNum (createdAt t))].

Definition json_of_listItem (i : ListItem) : JS.json :=
  JS.JObj [("contentId", JS.JStr (contentId i));
           ("contentType", JS.JStr (contentType i));
           ("addedAt", JS.JNum (addedAt i))].

(** A key whose value is [undefined] is left out. *)
Definition member {A : Type} (k : string) (f : A -> JS.json) (o : option A) : JS.object :=
  match o with
  | Some a => [(k, f a)]
  | None => []
  end.

Definition json_of_historyItem (h : HistoryItem) : JS.json :=
  JS.JObj ([("contentId", JS.JStr (historyContentId h));
            ("contentType", JS.JStr (historyContentType h));
            ("progress", JS.JNum (progress h));
            ("lastWatched", JS.JNum (lastWatched h))]
           ++ member "seasonNumber" JS.JNum (seasonNumber h)
           ++ member "episodeNumber" JS.JNum (episodeNumber h))%list.

Definition json_of_preferences (p : Preferences) : JS.json :=
  JS.JObj [("genres", JS.JArr (map JS.JStr (genres p)));
           ("language", JS.JStr (language p));
           ("autoplay", JS.JBool (autoplay p))].

(** [this.toObject()] *)
Definition toObject (u : User) : JS.object :=
  ([("_id", JS.JNum (Z.of_N (_id u)));
   ("username", JS.JStr (username u));
   ("email", JS.JStr (email u))]
  ++ member "password" JS.JStr (password u)
  ++ [("firstName", JS.JStr (firstName u));
      ("lastName", JS.JStr (lastName u));
      ("profileImage", json_of_nullable (profileImage u));
      ("role", json_of_role (role u));
      ("isActive", JS.JBool (isActive u));
      ("refreshTokens", JS.JArr (map json_of_refreshToken (refreshTokens u)));
      ("watchlist", JS.JArr (map json_of_listItem (watchlist u)));
      ("favorites", JS.JArr (map json_of_listItem (favorites u)));
      ("watchHistory", JS.JArr (map json_of_historyItem (watchHistory u)));
      ("preferences", json_of_preferences (preferences u))]
  ++ member "passwordResetToken" JS.JStr (passwordResetToken u)
  ++ member "passwordResetExpires" JS.JNum (passwordResetExpires u))%list.

(** [userSchema.methods.toJSON]; [res.json] serialises a document through
    it. *)
Definition toJSON (d : Document) : JS.object :=
  let userObject := toObject (fields d) in
  let userObject := JS.delete "password" userObject in
  let userObject := JS.delete "refreshTokens" userObject in
  let userObject := JS.delete "passwordResetToken" userObject in
  let userObject := JS.delete "passwordResetExpires" userObject in
  userObject.

(** ** Stand-ins for the libraries, for the examples

    Tokens and hashes that spell out what they bind; ids and clock seconds
    below ten. *)

Module Toy.

Definition digit (n : N) : ascii := ascii_of_N (48 + n).
Definition undigit (a : ascii) : N := N_of_ascii a - 48.

Definition sign (userId : ObjectId) (secret expiresIn : string) (iat : Z) : string :=
  String (digit userId) (String (digit (Z.to_N iat)) (secret ++ expiresIn)).

Definition verify (t secret : string) (clock : Z) : result JwtError ObjectId :=
  match t with
  | String a (String b rest) =>
      if String.prefix secret rest then
        if (clock <? Z.of_N (undigit b) + 5)%Z then Ok (undigit a)
        else Throw TokenExpiredError
      else Throw (JsonWebTokenError "invalid signature")
  | _ => Throw (JsonWebTokenError "jwt malformed")
  end.

Definition hash (data salt : string) : string := "$2a$10$" ++ salt ++ "$" ++ data.

Definition compare (data h : string) : bool :=
  h =? hash data (String.substring 7 2 h).

Definition cfg : Config := mkConfig "access-key" "15m" "refresh-key" "7d".

(** The refresh token [generateTokens] issues for [id] in clock second
    [second]. *)
Definition refreshTokenOf (id : ObjectId) (second : Z) : string :=
  sign id (JWT_REFRESH_SECRET cfg) (JWT_REFRESH_EXPIRES_IN cfg) second.

Definition account (id : ObjectId) (name mail pw : string) (active : bool)
    (tokens : list RefreshToken) : User :=
  mkUser id name mail (Some (hash pw "ab")) "A" "B" None RoleUser active tokens
    [] [] [] (mkPreferences [] "en" true) None None.

(** Alice holds a token issued in second 0 and, once she has logged in at
    1200 ms, one issued in second 1; Carol is deactivated and holds a token
    issued in second 1. *)
Definition aliceOld : string := refreshTokenOf 1%N 0.
Definition aliceNew : string := refreshTokenOf 1%N 1.
Definition carolToken : string := refreshTokenOf 2%N 1.

Definition alice0 : User :=
  account 1%N "alice" "alice@x.com" "secret1" true [mkRefreshToken aliceOld 900].

Definition alice : User :=
  account 1%N "alice" "alice@x.com" "secret1" true
    [mkRefreshToken aliceOld 900; mkRefreshToken aliceNew 1200].

Definition carol : User :=
  account 2%N "carol" "carol@x.com" "secret2" false [mkRefreshToken carolToken 1300].

(** The collection before and after Alice's login at 1200 ms. *)
Definition users0 : Collection := [alice0; carol].
Definition users : Collection := [alice; carol].

(** Three requests in clock second 1 and one in second 2. *)
Definition env0 : Env := mkEnv 1200 "ab" 5%N.
Definition env1 : Env := mkEnv 1700 "cd" 7%N.
Definition env1' : Env := mkEnv 1900 "ef" 8%N.
Definition env2 : Env := mkEnv 2400 "gh" 9%N.


(** A request in second 9, when the tokens above have expired. *)
Definition env9 : Env := mkEnv 9100 "ij" 6%N.

Definition dave : Signup.body := Signup.mkBody "dave" "dave@x.com" "secret4" "D" "E".

End Toy.

(** ** The user routes ([backend/routes/users.js]): what they exchange

    [req.user] is the account document the authentication middleware loaded
    for the request.  Numbers ([progress], dates, season and episode) are
    integers here; the comparisons of the routes read the same on
    fractions. *)

Module Item.
Record body : Type := mkBody {
  contentId : string;
  contentType : string
}.
End Item.

Module History.
Record body : Type := mkBody {
  contentId : string;
  contentType : string;
  progress : option Z;
  seasonNumber : option Z;
  episodeNumber : option Z
}.
End History.

(** An exception of a user route: one raised by [save()], or the
    [TypeError] of reading a property of [null]. *)
Inductive UserError : Type :=
| SaveError (e : Error)
| TypeError.

Inductive UserBody : Type :=
| Failed (message : string)
| Succeeded (message : string)
| Profile (user : JS.object)
| ItemList (key : string) (items : list ListItem)
| HistoryList (key : string) (items : list HistoryItem).

Inductive UserOutcome : Type :=
| UserRespond (status : nat) (body : UserBody)
| UserNext (error : UserError).

Definition set_watchlist (l : list ListItem) (u : User) : User :=
  mkUser (_id u) (username u) (email u) (password u) (firstName u) (lastName u)
    (profileImage u) (role u) (isActive u) (refreshTokens u) l
    (favorites u) (watchHistory u) (preferences u) (passwordResetToken u)
    (passwordResetExpires u).

Definition set_favorites (l : list ListItem) (u : User) : User :=
  mkUser (_id u) (username u) (email u) (password u) (firstName u) (lastName u)
    (profileImage u) (role u) (isActive u) (refreshTokens u) (watchlist u)
    l (watchHistory u) (preferences u) (passwordResetToken u)
    (passwordResetExpires u).

Definition set_watchHistory (l : list HistoryItem) (u : User) : User :=
  mkUser (_id u) (username u) (email u) (password u) (firstName u) (lastName u)
    (profileImage u) (role u) (isActive u) (refreshTokens u) (watchlist u)
    (favorites u) l (preferences u) (passwordResetToken u)
    (passwordResetExpires u).

(** The watchlist and the favorites routes are the same code on two paths. *)
Inductive ListPath : Type := Watchlist | Favorites.

Definition pathName (p : ListPath) : string :=
  match p with
  | Watchlist => "watchlist"
  | Favorites => "favorites"
  end.

Definition getList (p : ListPath) (u : User) : list ListItem :=
  match p with
  | Watchlist => watchlist u
  | Favorites => favorites u
  end.

Definition setList (p : ListPath) (l : list ListItem) (u : User) : User :=
  match p with
  | Watchlist => set_watchlist l u
  | Favorites => set_favorites l u
  end.

(** [doc.watchlist = l], [doc.favorites = l], [doc.watchHistory = l]; a
    [push] or an indexed assignment marks the path in the same way. *)
Definition assign_list (p : ListPath) (l : list ListItem) (d : Document) : Document :=
  markModified (pathName p)
    (mkDocument (setList p l (fields d)) (isNew d) (loaded d) (modifiedPaths d)).

Definition assign_watchHistory (l : list HistoryItem) (d : Document) : Document :=
  markModified "watchHistory"
    (mkDocument (set_watchHistory l (fields d)) (isNew d) (loaded d)
       (modifiedPaths d)).

(** [item => item.contentId === contentId && item.contentType === contentType] *)
Definition sameItem (id type : string) (i : ListItem) : bool :=
  (contentId i =? id) && (contentType i =? type).

Definition sameEntry (id type : string) (h : HistoryItem) : bool :=
  (historyContentId h =? id) && (historyContentType h =? type).

(** [Array.prototype.findIndex]; [None] is [-1]. *)
Fixpoint findIndex {A : Type} (p : A -> bool) (l : list A) : option nat :=
  match l with
  | [] => None
  | x :: l' => if p x then Some 0%nat else option_map S (findIndex p l')
  end.

(** [l[i] = x] for an index inside the array. *)
Fixpoint setAt {A : Type} (i : nat) (x : A) (l : list A) : list A :=
  match i, l with
  | _, [] => []
  | O, _ :: l' => x :: l'
  | S i', y :: l' => y :: setAt i' x l'
  end.

(** [...(n && { key: n })]: the key is spread only for a truthy number. *)
Definition truthyNumber (o : option Z) : option Z :=
  match o with
  | Some n => if (n =? 0)%Z then None else Some n
  | None => None
  end.

(** [list.sort((a, b) => b.lastWatched - a.lastWatched)]: latest first, and
    entries of equal date in the order they had (the sort is stable). *)
Fixpoint insertByLastWatched (h : HistoryItem) (l : list HistoryItem)
  : list HistoryItem :=
  match l with
  | [] => [h]
  | x :: l' =>
      if (lastWatched h <? lastWatched x)%Z then x :: insertByLastWatched h l'
      else h :: l
  end.

Definition sortByLastWatched (l : list HistoryItem) : list HistoryItem :=
  fold_right insertByLastWatched [] l.

(** [item => item.progress > 5 && item.progress < 95] *)
Definition inProgress (h : HistoryItem) : bool :=
  (5 <? progress h)%Z && (progress h <? 95)%Z.

(** No two entries of a list for the same content and type. *)
Fixpoint distinctItems (l : list ListItem) : bool :=
  match l with
  | [] => true
  | i :: l' =>
      negb (existsb (sameItem (contentId i) (contentType i)) l')
      && distinctItems l'
  end.

Fixpoint distinctEntries (l : list HistoryItem) : bool :=
  match l with
  | [] => true
  | h :: l' =>
      negb (existsb (sameEntry (historyContentId h) (historyContentType h)) l')
      && distinctEntries l'
  end.

(** What the history route stores, as one recursion: the first entry for
    the content replaced where it stands, or the new entry at the end. *)
Fixpoint upsert {A : Type} (p : A -> bool) (x : A) (l : list A) : list A :=
  match l with
  | [] => [x]
  | y :: l' => if p y then x :: l' else y :: upsert p x l'
  end.

(** Latest first. *)
Definition laterFirst (a b : HistoryItem) : Prop := (lastWatched b <= lastWatched a)%Z.

(** ** Well-formed collections *)

Fixpoint distinct (l : list string) : bool :=
  match l with
  | [] => true
  | s :: l' => negb (existsb (String.eqb s) l') && distinct l'
  end.

Definition hasPassword (u : User) : bool :=
  match password u with
  | Some _ => true
  | None => false
  end.

(** Emails are stored in lower case; no two accounts share an email or a
    username; every account has a password hash. *)
Definition identitiesUnique (c : Collection) : bool :=
  distinct (map email c) && distinct (map username c)
  && forallb (fun u => email u =? cast_email (email u)) c
  && forallb hasPassword c.

(** ** A sample account with lists, for the examples *)

Module Sample.

Definition entry (id type : string) (progress lastWatched : Z) : HistoryItem :=
  mkHistoryItem id type progress lastWatched None None.

(** Erin lists the same content id as a movie and as a show, and has
    watched four things: two of them part-way. *)
Definition erin : User :=
  mkUser 3%N "erin" "erin@x.com" (Some (Toy.hash "secret5" "ab")) "E" "R" None
    RoleUser true []
    [mkListItem "tt001" "movie" 100; mkListItem "tt001" "tv" 200;
     mkListItem "tt002" "movie" 300]
    [mkListItem "tt002" "movie" 400]
    [entry "tt001" "movie" 50 1000; entry "tt002" "tv" 97 3000;
     entry "tt003" "movie" 10 2000; entry "tt004" "tv" 5 4000]
    (mkPreferences [] "en" true) None None.

Definition users : Collection := [Toy.alice; Toy.carol; erin].

(** An account stored with a username shorter than the schema allows. *)
Definition al : User :=
  mkUser 4%N "al" "al@x.com" (Some (Toy.hash "secret6" "ab")) "A" "L" None
    RoleUser true [mkRefreshToken "old-token" 1000] [] [] []
    (mkPreferences [] "en" true) None None.

End Sample.

(** ** The model methods and the routes *)

Section Auth.

(** [jwt.sign({ userId }, secret, { expiresIn })] called in clock second
    [iat]. *)
Variable jwt_sign : ObjectId -> string -> string -> Z -> string.

(** [jwt.verify(token, secret)] called in clock second [clock]; on success
    the [userId] of the decoded payload. *)
Variable jwt_verify : string -> string -> Z -> result JwtError ObjectId.

(** [bcrypt.hash(data, salt)] and [bcrypt.compare(data, hash)]. *)
Variable bcrypt_hash : string -> string -> string.
Variable bcrypt_compare : string -> string -> bool.

(** A bcrypt hash has sixty characters; what the properties use of it is
    that it has the six that [minlength] asks of the [password] path. *)
Hypothesis bcrypt_hash_length :
  forall data salt : string, (6 <= String.length (bcrypt_hash data salt))%nat.

Variable cfg : Config.

(** [userSchema.pre('save', ...)] *)
Definition preSave (env : Env) (d : Document) : result Error Document :=
  if negb (isModified "password" d) then Ok d
  else
    match password (fields d) with
    | Some p => Ok (assign_password (Some (bcrypt_hash p (salt env))) d)
    | None => Throw IllegalArguments
    end.

(** The paths [save()] validates: every path of a new document and of a
    document a query loaded, whether the handler set it or not; of a
    document stored earlier in the same request, the paths set since and
    the required ones. *)
Definition validated (path : string) (d : Document) : bool :=
  isNew d || loaded d || isModified path d || existsb (String.eqb path) requiredPaths.

(** The paths that fail validation. *)
Definition validate (d : Document) : list string :=
  map fst
    (filter (fun pv => validated (fst pv) d && negb (snd pv (fields d))) validators).

(** [doc.save()]: validation, the pre-save hook, then the write.  The
    document comes back with no path modified. *)
Definition save (env : Env) (d : Document) (c : Collection)
  : result Error (Document * Collection) :=
  match validate d with
  | [] =>
      match preSave env d with
      | Throw e => Throw e
      | Ok d' =>
          if isNew d' then
            if duplicateKey (fields d') c then Throw DuplicateKeyError
            else Ok (mkDocument (fields d') false (loaded d') [],
                     (c ++ [fields d'])%list)
          else Ok (mkDocument (fields d') false (loaded d') [],
                   replaceById (fields d') c)
      end
  | paths => Throw (ValidationError paths)
  end.

(** [userSchema.methods.comparePassword] *)
Definition comparePassword (d : Document) (candidatePassword : string)
  : result Error bool :=
  match password (fields d) with
  | Some h => Ok (bcrypt_compare candidatePassword h)
  | None => Throw IllegalArguments
  end.

(** [generateTokens(userId)]: [(accessToken, refreshToken)]. *)
Definition generateTokens (env : Env) (userId : ObjectId) : string * string :=
  let accessToken :=
    jwt_sign userId (JWT_ACCESS_SECRET cfg) (JWT_ACCESS_EXPIRES_IN cfg) (now env / 1000) in
  let refreshToken :=
    jwt_sign userId (JWT_REFRESH_SECRET cfg) (JWT_REFRESH_EXPIRES_IN cfg) (now env / 1000) in
  (accessToken, refreshToken).

(** [router.post('/signup', ...)] *)
Definition signup (env : Env) (body : Signup.body) (c : Collection)
  : Outcome * Collection :=
  match findOne_email_or_username (Signup.email body) (Signup.username body) c with
  | Some existingUser =>
      (Respond 400
         (Message (if email (fields existingUser) =? Signup.email body
                   then "Email already registered"
                   else "Username already taken")), c)
  | None =>
      let user := new_User (objectId env) (Signup.username body) (Signup.email body)
                    (Signup.password body) (Signup.firstName body) (Signup.lastName body) in
      match save env user c with
      | Throw e => (Next e, c)
      | Ok (user, c1) =>
          let '(accessToken, refreshToken) := generateTokens env (_id (fields user)) in
          let user := push_refreshToken refreshToken (now env) user in
          match save env user c1 with
          | Throw e => (Next e, c1)
          | Ok (user, c2) =>
              (Respond 201
                 (Session "User registered successfully" (toJSON user)
                    accessToken refreshToken), c2)
          end
      end
  end.

(** [router.post('/login', ...)] *)
Definition login (env : Env) (body : Login.body) (c : Collection)
  : Outcome * Collection :=
  match findOne_email (Login.email body) c with
  | None => (Respond 401 (Message "Invalid credentials"), c)
  | Some user =>
      match comparePassword user (Login.password body) with
      | Throw e => (Next e, c)
      | Ok false => (Respond 401 (Message "Invalid credentials"), c)
      | Ok true =>
          if negb (isActive (fields user)) then
            (Respond 401 (Message "Account deactivated"), c)
          else
            let '(accessToken, refreshToken) := generateTokens env (_id (fields user)) in
            let user := push_refreshToken refreshToken (now env) user in
            match save env user c with
            | Throw e => (Next e, c)
            | Ok (user, c1) =>
                let user := assign_password None user in
                (Respond 200
                   (Session "Login successful" (toJSON user) accessToken refreshToken),
                 c1)
            end
      end
  end.

(** [jwt.verify(refreshToken, process.env.JWT_REFRESH_SECRET)]: a value that
    is not a string is refused before any decoding. *)
Definition verifyRefreshToken (env : Env) (refreshToken : JS.value)
  : result JwtError ObjectId :=
  match refreshToken with
  | Some (JS.JStr s) => jwt_verify s (JWT_REFRESH_SECRET cfg) (now env / 1000)
  | _ => Throw (JsonWebTokenError "jwt must be a string")
  end.

(** [token => token.token === refreshToken] and its negation. *)
Definition isToken (refreshToken : JS.value) (t : RefreshToken) : bool :=
  JS.strictEqStr (token t) refreshToken.

Definition isNotToken (refreshToken : JS.value) (t : RefreshToken) : bool :=
  negb (JS.strictEqStr (token t) refreshToken).

(** [router.post('/refresh-token', ...)] *)
Definition refresh_token (env : Env) (refreshToken : JS.value) (c : Collection)
  : Outcome * Collection :=
  if negb (JS.truthy refreshToken) then
    (Respond 401 (Message "Refresh token required"), c)
  else
    match verifyRefreshToken env refreshToken with
    | Throw e => (Next (Jwt e), c)
    | Ok userId =>
        match findById userId c with
        | None => (Respond 403 (Message "Invalid refresh token"), c)
        | Some user =>
            if negb (existsb (isToken refreshToken) (refreshTokens (fields user))) then
              (Respond 403 (Message "Invalid refresh token"), c)
            else
              let tokens := generateTokens env (_id (fields user)) in
              let user :=
                assign_refreshTokens
                  (filter (isNotToken refreshToken) (refreshTokens (fields user))) user in
              let user := push_refreshToken (snd tokens) (now env) user in
              match save env user c with
              | Throw e => (Next e, c)
              | Ok (_, c1) => (Respond 200 (Tokens (fst tokens) (snd tokens)), c1)
              end
        end
    end.






(** [router.post('/logout', authenticateToken, ...)]; [userId] is
    [req.user.userId || req.user._id], the identity the access token
    carried. *)
Definition logout (env : Env) (userId : ObjectId) (refreshToken : JS.value)
    (c : Collection) : Outcome * Collection :=
  match findById userId c with
  | None => (Respond 404 (Message "User not found"), c)
  | Some user =>
      let user :=
        if JS.truthy refreshToken then
          assign_refreshTokens
            (filter (isNotToken refreshToken) (refreshTokens (fields user))) user
        else assign_refreshTokens [] user in
      match save env user c with
      | Throw e => (Next e, c)
      | Ok (_, c1) => (Respond 200 (Message "Logged out successfully"), c1)
      end
  end.

(** Modelled from the spec: the error-handling middleware that receives
    [next(error)] is not among the sources.  The spec gives the refresh
    operation the failure [InvalidToken], HTTP 403, "on any verification
    failure (malformed, expired, wrong signing key)"; nothing else is said
    about forwarded errors, which are left as they are. *)
Definition errorHandler (o : Outcome) : Outcome :=
  match o with
  | Next (Jwt _) => Respond 403 (Message "Invalid refresh token")
  | _ => o
  end.

(** The names the spec gives to the failures of the routes. *)
Definition DuplicateIdentity (o : Outcome) : Prop :=
  o = Respond 400 (Message "Email already registered")
  \/ o = Respond 400 (Message "Username already taken").
Definition InvalidCredentials : Outcome := Respond 401 (Message "Invalid credentials").
Definition AccountDeactivated : Outcome := Respond 401 (Message "Account deactivated").
Definition MissingToken : Outcome := Respond 401 (Message "Refresh token required").
Definition InvalidToken : Outcome := Respond 403 (Message "Invalid refresh token").
Definition AccountNotFound : Outcome := Respond 404 (Message "User not found").

(** The [user] member of a session response. *)
Definition sessionUser (o : Outcome) : JS.object :=
  match o with
  | Respond _ (Session _ user _ _) => user
  | _ => []
  end.

(** The tokens an account has outstanding, and the hash it stores. *)
Definition outstanding (userId : ObjectId) (c : Collection) : list string :=
  match findById userId c with
  | Some d => map token (refreshTokens (fields d))
  | None => []
  end.

Definition storedPassword (userId : ObjectId) (c : Collection) : option string :=
  match findById userId c with
  | Some d => password (fields d)
  | None => None
  end.

(** What the unique index on [_id] guarantees of a collection. *)
Fixpoint uniqueIds (c : Collection) : bool :=
  match c with
  | [] => true
  | u :: c' => negb (existsb (fun v => N.eqb (_id v) (_id u)) c') && uniqueIds c'
  end.

(** The account [new User(...)] builds and the first [save()] stores: the
    setters applied, the password hashed by the pre-save hook. *)
Definition createdAccount (env : Env) (body : Signup.body) : User :=
  set_password (Some (bcrypt_hash (Signup.password body) (salt env)))
    (fields (new_User (objectId env) (Signup.username body) (Signup.email body)
               (Signup.password body) (Signup.firstName body) (Signup.lastName body))).

(** The same account once the second [save()] has stored its first refresh
    token. *)
Definition registeredAccount (env : Env) (body : Signup.body) : User :=
  set_refreshTokens
    [mkRefreshToken (snd (generateTokens env (objectId env))) (now env)]
    (createdAccount env body).

(** What the routes that only touch [refreshTokens] may do to the
    collection: nothing, or replace one stored account by itself with another
    token list. *)
Definition tokensRewritten (c c' : Collection) : Prop :=
  c' = c \/ exists u l, In u c /\ c' = replaceById (set_refreshTokens l u) c.

(** A response of success: status 200 or 201. *)
Definition isSuccess (o : Outcome) : bool :=
  match o with
  | Respond 200 _ => true
  | Respond 201 _ => true
  | _ => false
  end.

(** *** The user routes

    [req.user.save()] sends the modified paths; the properties of these
    routes take [req.user] to carry the stored account, for which that is
    the replacement [save] makes. *)


(** [router.get('/profile', authenticateToken, ...)] *)
Definition profile_get (user : Document) : UserOutcome :=
  UserRespond 200 (Profile (toJSON user)).

(** [router.get('/watchlist', ...)] and [router.get('/favorites', ...)]:
    [User.findById(req.user._id).select(path)], then [user[path]]. *)
Definition list_get (p : ListPath) (user : Document) (c : Collection) : UserOutcome :=
  match findById (_id (fields user)) c with
  | None => UserNext TypeError
  | Some found => UserRespond 200 (ItemList (pathName p) (getList p (fields found)))
  end.

(** [router.post('/watchlist', ...)] and [router.post('/favorites', ...)] *)
Definition list_post (p : ListPath) (env : Env) (user : Document) (body : Item.body)
    (c : Collection) : UserOutcome * Collection :=
  match find (sameItem (Item.contentId body) (Item.contentType body))
          (getList p (fields user)) with
  | Some existingItem =>
      (UserRespond 400 (Failed ("Item already in " ++ pathName p)), c)
  | None =>
      let user :=
        assign_list p
          (getList p (fields user)
           ++ [mkListItem (Item.contentId body) (Item.contentType body) (now env)])
          user in
      match save env user c with
      | Throw e => (UserNext (SaveError e), c)
      | Ok (_, c1) => (UserRespond 200 (Succeeded ("Added to " ++ pathName p)), c1)
      end
  end.

(** [router.delete('/watchlist/:contentId', ...)] and
    [router.delete('/favorites/:contentId', ...)] *)
Definition list_delete (p : ListPath) (env : Env) (user : Document) (id : string)
    (c : Collection) : UserOutcome * Collection :=
  let user :=
    assign_list p
      (filter (fun item => negb (contentId item =? id)) (getList p (fields user)))
      user in
  match save env user c with
  | Throw e => (UserNext (SaveError e), c)
  | Ok (_, c1) => (UserRespond 200 (Succeeded ("Removed from " ++ pathName p)), c1)
  end.

(** [router.get('/history', ...)] *)
Definition history_get (user : Document) (c : Collection) : UserOutcome :=
  match findById (_id (fields user)) c with
  | None => UserNext TypeError
  | Some found =>
      UserRespond 200
        (HistoryList "history" (sortByLastWatched (watchHistory (fields found))))
  end.

(** [router.post('/history', ...)] *)
Definition history_post (env : Env) (user : Document) (body : History.body)
    (c : Collection) : UserOutcome * Collection :=
  let progress :=
    match History.progress body with
    | Some n => n
    | None => 0%Z
    end in
  let existingIndex :=
    findIndex (sameEntry (History.contentId body) (History.contentType body))
      (watchHistory (fields user)) in
  let historyItem :=
    mkHistoryItem (History.contentId body) (History.contentType body) progress
      (now env) (truthyNumber (History.seasonNumber body))
      (truthyNumber (History.episodeNumber body)) in
  let user :=
    match existingIndex with
    | Some i =>
        assign_watchHistory (setAt i historyItem (watchHistory (fields user))) user
    | None =>
        assign_watchHistory (watchHistory (fields user) ++ [historyItem]) user
    end in
  match save env user c with
  | Throw e => (UserNext (SaveError e), c)
  | Ok (_, c1) => (UserRespond 200 (Succeeded "Watch history updated"), c1)
  end.

(** [router.get('/continue-watching', ...)] *)
Definition continue_watching (user : Document) (c : Collection) : UserOutcome :=
  match findById (_id (fields user)) c with
  | None => UserNext TypeError
  | Some found =>
      let continueWatching :=
        firstn 20
          (sortByLastWatched (filter inProgress (watchHistory (fields found)))) in
      UserRespond 200 (HistoryList "continueWatching" continueWatching)
  end.

(** [router.delete('/history', ...)] *)
Definition history_delete (env : Env) (user : Document) (c : Collection)
  : UserOutcome * Collection :=
  let user := assign_watchHistory [] user in
  match save env user c with
  | Throw e => (UserNext (SaveError e), c)
  | Ok (_, c1) => (UserRespond 200 (Succeeded "Watch history cleared"), c1)
  end.

(** *** Strings and plain objects *)

Lemma strictEqStr_JStr (s t : string) :
  JS.strictEqStr s (Some (JS.JStr t)) = (s =? t).
Proof. reflexivity. Qed.

Lemma truthy_JStr (t : string) : t <> "" -> JS.truthy (Some (JS.JStr t)) = true.
Proof.
  intros Hne. cbn. destruct (String.eqb_spec t ""); [contradiction | reflexivity].
Qed.

Lemma isToken_iff (t : string) (r : RefreshToken) :
  isToken (Some (JS.JStr t)) r = true <-> token r = t.
Proof. unfold isToken. rewrite strictEqStr_JStr. apply String.eqb_eq. Qed.

Lemma existsb_isToken (t : string) (l : list RefreshToken) :
  existsb (isToken (Some (JS.JStr t))) l = true <-> In t (map token l).
Proof.
  rewrite existsb_exists, in_map_iff. split.
  - intros [r [Hin Hr]]. exists r. split; [now apply isToken_iff | exact Hin].
  - intros [r [Hr Hin]]. exists r. split; [exact Hin | now apply isToken_iff].
Qed.

Lemma filter_isNotToken_In (t s : string) (l : list RefreshToken) :
  In s (map token (filter (isNotToken (Some (JS.JStr t))) l))
  <-> In s (map token l) /\ s <> t.
Proof.
  rewrite !in_map_iff. split.
  - intros [r [Hr Hin]]. apply filter_In in Hin. destruct Hin as [Hin Hnot].
    unfold isNotToken in Hnot. rewrite strictEqStr_JStr in Hnot.
    apply negb_true_iff, String.eqb_neq in Hnot. subst s.
    split; [exists r; auto | exact Hnot].
  - intros [[r [Hr Hin]] Hne]. exists r. split; [exact Hr |].
    apply filter_In. split; [exact Hin |].
    unfold isNotToken. rewrite strictEqStr_JStr. subst s.
    now apply negb_true_iff, String.eqb_neq.
Qed.

Lemma filter_isNotToken_absent (t : string) (l : list RefreshToken) :
  ~ In t (map token l) -> filter (isNotToken (Some (JS.JStr t))) l = l.
Proof.
  induction l as [| r l IH]; intros Hnot; [reflexivity |].
  cbn [filter]. unfold isNotToken at 1. rewrite strictEqStr_JStr.
  destruct (String.eqb_spec (token r) t) as [Heq | Hne].
  - exfalso. apply Hnot. left. exact Heq.
  - cbn [negb]. f_equal. apply IH. intros Hin. apply Hnot. right. exact Hin.
Qed.

Lemma set_refreshTokens_same (u : User) : set_refreshTokens (refreshTokens u) u = u.
Proof. destruct u; reflexivity. Qed.

(** *** The collection *)

Lemma find_replaceById (id : ObjectId) (u : User) (c : Collection) :
  find (fun v => N.eqb (_id v) id) (replaceById u c)
  = option_map (fun v => if N.eqb (_id v) (_id u) then u else v)
      (find (fun v => N.eqb (_id v) id) c).
Proof.
  unfold replaceById.
  induction c as [| v c IH]; [reflexivity |].
  cbn [map find].
  destruct (N.eqb (_id v) (_id u)) eqn:Hvu.
  - apply N.eqb_eq in Hvu as Heq.
    replace (N.eqb (_id u) id) with (N.eqb (_id v) id) by (rewrite Heq; reflexivity).
    destruct (N.eqb (_id v) id); [cbn; rewrite Hvu; reflexivity | exact IH].
  - destruct (N.eqb (_id v) id); [cbn; rewrite Hvu; reflexivity | exact IH].
Qed.

Lemma findById_hydrate (id : ObjectId) (c : Collection) (d : Document) :
  findById id c = Some d ->
  exists u, d = hydrate u /\ In u c /\ _id u = id
            /\ find (fun v => N.eqb (_id v) id) c = Some u.
Proof.
  unfold findById. destruct (find _ c) as [u |] eqn:Hf; [| discriminate].
  intros H. inversion H. exists u. apply find_some in Hf as Hs.
  destruct Hs as [Hin Hid]. apply N.eqb_eq in Hid. auto.
Qed.

Lemma findById_replaceById_same (u u' : User) (c : Collection) :
  findById (_id u) c = Some (hydrate u) -> _id u' = _id u ->
  findById (_id u) (replaceById u' c) = Some (hydrate u').
Proof.
  intros Hf Hid. unfold findById in *. rewrite find_replaceById.
  destruct (find _ c) as [v |]; [| discriminate].
  inversion Hf. subst v. cbn. rewrite Hid, N.eqb_refl. reflexivity.
Qed.

Lemma findById_replaceById_other (id : ObjectId) (u' : User) (c : Collection) :
  id <> _id u' -> findById id (replaceById u' c) = findById id c.
Proof.
  intros Hne. unfold findById. rewrite find_replaceById.
  destruct (find _ c) as [v |] eqn:Hf; [| reflexivity].
  apply find_some in Hf. destruct Hf as [_ Hv]. apply N.eqb_eq in Hv.
  cbn. destruct (N.eqb_spec (_id v) (_id u')); [congruence | reflexivity].
Qed.

Lemma uniqueIds_find (u : User) (c : Collection) :
  uniqueIds c = true -> In u c -> find (fun v => N.eqb (_id v) (_id u)) c = Some u.
Proof.
  induction c as [| v c IH]; intros Hu Hin; [contradiction |].
  cbn in Hu. apply andb_true_iff in Hu. destruct Hu as [Hfresh Hu].
  cbn [find]. destruct Hin as [-> | Hin].
  - rewrite N.eqb_refl. reflexivity.
  - destruct (N.eqb_spec (_id v) (_id u)) as [Heq | Hne].
    + exfalso. apply negb_true_iff in Hfresh.
      assert (Hex : existsb (fun w => N.eqb (_id w) (_id v)) c = true).
      { apply existsb_exists. exists u. split; [exact Hin |].
        apply N.eqb_eq. symmetry. exact Heq. }
      congruence.
    + apply IH; assumption.
Qed.

(** *** Validation *)

Lemma validate_valid (d : Document) :
  validAccount (fields d) = true -> validate d = [].
Proof using Type.
  unfold validate, validAccount.
  induction validators as [| pv l IH]; intros H; [reflexivity |].
  cbn [forallb] in H. apply andb_true_iff in H. destruct H as [Hpv Hl].
  cbn [filter]. rewrite Hpv, andb_false_r. apply IH. exact Hl.
Qed.

Lemma validate_invalid (d : Document) :
  isNew d || loaded d = true -> validAccount (fields d) = false -> validate d <> [].
Proof using Type.
  intros Hall. unfold validate, validAccount.
  induction validators as [| pv l IH]; intros H; [discriminate |].
  cbn [forallb] in H. cbn [filter]. unfold validated at 1. rewrite Hall.
  cbn [orb andb]. destruct (snd pv (fields d)); cbn [negb].
  - apply IH. exact H.
  - discriminate.
Qed.

Lemma validAccount_set_refreshTokens (l : list RefreshToken) (u : User) :
  validAccount (set_refreshTokens l u) = validAccount u.
Proof using Type. reflexivity. Qed.

Lemma validAccount_paths (u : User) :
  validAccount u
  = valid_username u && valid_email u && valid_password u && valid_firstName u
    && valid_lastName u && valid_watchlist u && valid_favorites u
    && valid_watchHistory u.
Proof using Type.
  unfold validAccount, validators. cbn [forallb snd].
  rewrite andb_true_r, !andb_assoc. reflexivity.
Qed.

Ltac split_valid H :=
  rewrite validAccount_paths in H;
  do 7 (apply andb_true_iff in H; let H' := fresh "Hpath" in destruct H as [H H']).

Ltac rewrite_valid :=
  repeat match goal with
         | H : _ = true |- _ => rewrite H; clear H
         end.


Lemma validAccount_setList (p : ListPath) (l : list ListItem) (u : User) :
  validAccount u = true ->
  validAccount (setList p l u) = forallb valid_listItem l.
Proof using Type.
  intros Hv. split_valid Hv. destruct p; cbn [setList].
  - rewrite (validAccount_paths (set_watchlist l u)
             : _ = valid_username u && valid_email u && valid_password u
                   && valid_firstName u && valid_lastName u
                   && forallb valid_listItem l && valid_favorites u
                   && valid_watchHistory u).
    rewrite_valid. cbn [andb]. rewrite !andb_true_r. reflexivity.
  - rewrite (validAccount_paths (set_favorites l u)
             : _ = valid_username u && valid_email u && valid_password u
                   && valid_firstName u && valid_lastName u
                   && valid_watchlist u && forallb valid_listItem l
                   && valid_watchHistory u).
    rewrite_valid. cbn [andb]. rewrite !andb_true_r. reflexivity.
Qed.

Lemma validAccount_set_watchHistory (l : list HistoryItem) (u : User) :
  validAccount u = true ->
  validAccount (set_watchHistory l u) = forallb valid_historyItem l.
Proof using Type.
  intros Hv. split_valid Hv.
  rewrite (validAccount_paths (set_watchHistory l u)
           : _ = valid_username u && valid_email u && valid_password u
                 && valid_firstName u && valid_lastName u
                 && valid_watchlist u && valid_favorites u
                 && forallb valid_historyItem l).
  rewrite_valid. reflexivity.
Qed.

Lemma validAccount_getList (p : ListPath) (u : User) :
  validAccount u = true -> forallb valid_listItem (getList p u) = true.
Proof using Type.
  intros Hv. split_valid Hv. destruct p; assumption.
Qed.

Lemma validAccount_watchHistory (u : User) :
  validAccount u = true -> forallb valid_historyItem (watchHistory u) = true.
Proof using Type.
  intros Hv. split_valid Hv. assumption.
Qed.


(** *** Saving a stored document whose tokens changed *)

(** A save of a stored document whose password was not assigned either
    throws, or replaces the account by the fields of the document. *)
Lemma save_stored (env : Env) (d : Document) (c : Collection) :
  isNew d = false -> isModified "password" d = false ->
  (exists e, save env d c = Throw e)
  \/ save env d c
     = Ok (mkDocument (fields d) false (loaded d) [], replaceById (fields d) c).
Proof.
  intros Hnew Hpw. unfold save.
  destruct (validate d) as [| bad rest]; [| left; eexists; reflexivity].
  unfold preSave. rewrite Hpw. cbn [negb]. rewrite Hnew. right. reflexivity.
Qed.

Ltac case_save env c :=
  match goal with
  | |- context [save env ?d c] =>
      let e := fresh "e" in
      let Hthrow := fresh "Hthrow" in
      let Hsaved := fresh "Hsaved" in
      destruct (save_stored env d c eq_refl eq_refl) as [[e Hthrow] | Hsaved];
      [rewrite Hthrow | rewrite Hsaved]
  end.

Lemma save_tokens_only (env : Env) (d : Document) (c : Collection) :
  isNew d = false -> loaded d = true -> modifiedPaths d = ["refreshTokens"] ->
  validAccount (fields d) = true ->
  save env d c = Ok (hydrate (fields d), replaceById (fields d) c).
Proof.
  destruct d as [u n ld m]. cbn [isNew loaded modifiedPaths fields].
  intros -> -> -> Hvalid. unfold save.
  rewrite validate_valid by exact Hvalid. reflexivity.
Qed.

(** On a loaded document one of whose paths fails its validators the save
    throws, whatever the handler changed. *)
Lemma save_invalid (env : Env) (d : Document) (c : Collection) :
  loaded d = true -> validAccount (fields d) = false ->
  save env d c = Throw (ValidationError (validate d)) /\ validate d <> [].
Proof.
  intros Hld Hinv.
  assert (Hne : validate d <> []).
  { apply validate_invalid; [rewrite Hld; apply orb_true_r | exact Hinv]. }
  split; [| exact Hne]. unfold save.
  destruct (validate d) as [| bad rest]; [contradiction | reflexivity].
Qed.

Lemma save_assigned_tokens (env : Env) (u : User) (l : list RefreshToken)
    (c : Collection) :
  validAccount u = true ->
  save env (assign_refreshTokens l (hydrate u)) c
  = Ok (hydrate (set_refreshTokens l u), replaceById (set_refreshTokens l u) c).
Proof. intros Hvalid. apply save_tokens_only; (reflexivity || exact Hvalid). Qed.

Lemma save_pushed_token (env : Env) (u : User) (l : list RefreshToken)
    (t : string) (c : Collection) :
  validAccount u = true ->
  save env (push_refreshToken t (now env) (assign_refreshTokens l (hydrate u))) c
  = Ok (hydrate (set_refreshTokens (l ++ [mkRefreshToken t (now env)]) u),
        replaceById (set_refreshTokens (l ++ [mkRefreshToken t (now env)]) u) c).
Proof. intros Hvalid. apply save_tokens_only; (reflexivity || exact Hvalid). Qed.

Lemma save_appended_token (env : Env) (u : User) (t : string) (c : Collection) :
  validAccount u = true ->
  save env (push_refreshToken t (now env) (hydrate u)) c
  = Ok (hydrate (set_refreshTokens (refreshTokens u ++ [mkRefreshToken t (now env)]) u),
        replaceById
          (set_refreshTokens (refreshTokens u ++ [mkRefreshToken t (now env)]) u) c).
Proof. intros Hvalid. apply save_tokens_only; (reflexivity || exact Hvalid). Qed.

(** The second save of the signup route, on the document the first
    stored. *)
Lemma save_inserted_token (env : Env) (u : User) (t : string) (c : Collection) :
  validAccount u = true ->
  save env (push_refreshToken t (now env) (inserted u)) c
  = Ok (inserted
          (set_refreshTokens (refreshTokens u ++ [mkRefreshToken t (now env)]) u),
        replaceById
          (set_refreshTokens (refreshTokens u ++ [mkRefreshToken t (now env)]) u) c).
Proof.
  intros Hvalid. unfold save. rewrite validate_valid by exact Hvalid. reflexivity.
Qed.

(** *** The refresh route *)

Lemma refresh_token_success (env : Env) (t : string) (c : Collection) (u : User) :
  t <> "" ->
  jwt_verify t (JWT_REFRESH_SECRET cfg) (now env / 1000) = Ok (_id u) ->
  findById (_id u) c = Some (hydrate u) ->
  In t (map token (refreshTokens u)) ->
  validAccount u = true ->
  refresh_token env (Some (JS.JStr t)) c
  = (Respond 200
       (Tokens (fst (generateTokens env (_id u))) (snd (generateTokens env (_id u)))),
     replaceById
       (set_refreshTokens
          (filter (isNotToken (Some (JS.JStr t))) (refreshTokens u)
           ++ [mkRefreshToken (snd (generateTokens env (_id u))) (now env)]) u) c).
Proof.
  intros Hne Hv Hf Hin Hvalid. unfold refresh_token.
  rewrite (truthy_JStr t Hne). cbn [negb verifyRefreshToken].
  rewrite Hv, Hf. cbn [fields hydrate].
  apply existsb_isToken in Hin. rewrite Hin. cbn [negb].
  rewrite (save_pushed_token _ _ _ _ _ Hvalid). reflexivity.
Qed.

Lemma refresh_token_unknown (env : Env) (t : string) (c : Collection) (id : ObjectId) :
  t <> "" ->
  jwt_verify t (JWT_REFRESH_SECRET cfg) (now env / 1000) = Ok id ->
  ~ In t (outstanding id c) ->
  refresh_token env (Some (JS.JStr t)) c = (InvalidToken, c).
Proof.
  intros Hne Hv Hout. unfold refresh_token.
  rewrite (truthy_JStr t Hne). cbn [negb verifyRefreshToken]. rewrite Hv.
  unfold outstanding in Hout. destruct (findById id c) as [d |]; [| reflexivity].
  destruct (existsb _ _) eqn:Hex; [| reflexivity].
  apply existsb_isToken in Hex. contradiction.
Qed.

Lemma outstanding_after_refresh (env : Env) (t : string) (c : Collection) (u : User) :
  findById (_id u) c = Some (hydrate u) ->
  outstanding (_id u)
    (replaceById
       (set_refreshTokens
          (filter (isNotToken (Some (JS.JStr t))) (refreshTokens u)
           ++ [mkRefreshToken (snd (generateTokens env (_id u))) (now env)]) u) c)
  = (map token (filter (isNotToken (Some (JS.JStr t))) (refreshTokens u))
     ++ [snd (generateTokens env (_id u))])%list.
Proof.
  intros Hf. unfold outstanding.
  rewrite (findById_replaceById_same u _ c Hf) by reflexivity.
  cbn. rewrite map_app. reflexivity.
Qed.

(** Rotation when the issued token is a new value: the presented token
    leaves the collection, the issued one is appended, and presenting the old
    value again is refused. *)
Lemma refresh_token_rotates (env env' : Env) (t : string) (c : Collection) (u : User) :
  t <> "" ->
  jwt_verify t (JWT_REFRESH_SECRET cfg) (now env / 1000) = Ok (_id u) ->
  jwt_verify t (JWT_REFRESH_SECRET cfg) (now env' / 1000) = Ok (_id u) ->
  findById (_id u) c = Some (hydrate u) ->
  In t (map token (refreshTokens u)) ->
  validAccount u = true ->
  snd (generateTokens env (_id u)) <> t ->
  let c1 := snd (refresh_token env (Some (JS.JStr t)) c) in
  ~ In t (outstanding (_id u) c1)
  /\ refresh_token env' (Some (JS.JStr t)) c1 = (InvalidToken, c1).
Proof.
  intros Hne Hv Hv' Hf Hin Hvalid Hfresh c1.
  assert (Hout : ~ In t (outstanding (_id u) c1)).
  { unfold c1. rewrite (refresh_token_success env t c u Hne Hv Hf Hin Hvalid).
    cbn [snd]. rewrite outstanding_after_refresh by exact Hf.
    intros Hin'. apply in_app_or in Hin'. destruct Hin' as [Hold | Hnew].
    - apply filter_isNotToken_In in Hold. destruct Hold as [_ Hcontra]. now apply Hcontra.
    - destruct Hnew as [Hnew | []]. contradiction. }
  split; [exact Hout |].
  apply (refresh_token_unknown env' t c1 (_id u) Hne Hv' Hout).
Qed.

(** C1 (the code departs from the claim): [generateTokens] signs the same
    payload with the same key, so a refresh that runs in the clock second in
    which the presented token [t] was issued is handed [t] again.  The filter
    removes [t], the push appends it back, and presenting [t] a second time
    succeeds instead of being refused.  The account is one whose stored
    paths pass the validators [save()] runs. *)
Theorem refresh_in_issuing_second_reissues_token
    (env env' : Env) (t : string) (c : Collection) (u : User) :
  t = snd (generateTokens env (_id u)) ->
  t <> "" ->
  jwt_verify t (JWT_REFRESH_SECRET cfg) (now env / 1000) = Ok (_id u) ->
  jwt_verify t (JWT_REFRESH_SECRET cfg) (now env' / 1000) = Ok (_id u) ->
  findById (_id u) c = Some (hydrate u) ->
  In t (map token (refreshTokens u)) ->
  validAccount u = true ->
  exists a c1,
    refresh_token env (Some (JS.JStr t)) c = (Respond 200 (Tokens a t), c1)
    /\ In t (outstanding (_id u) c1)
    /\ exists a' r' c2,
         refresh_token env' (Some (JS.JStr t)) c1 = (Respond 200 (Tokens a' r'), c2).
Proof.
  intros Ht Hne Hv Hv' Hf Hin Hvalid.
  pose proof (refresh_token_success env t c u Hne Hv Hf Hin Hvalid) as H1.
  rewrite <- Ht in H1.
  set (u1 := set_refreshTokens
               (filter (isNotToken (Some (JS.JStr t))) (refreshTokens u)
                ++ [mkRefreshToken t (now env)]) u) in *.
  assert (Hf1 : findById (_id u1) (replaceById u1 c) = Some (hydrate u1)).
  { apply (findById_replaceById_same u u1 c Hf). reflexivity. }
  assert (Hin1 : In t (map token (refreshTokens u1))).
  { unfold u1. cbn. rewrite map_app. apply in_or_app. right. left. reflexivity. }
  exists (fst (generateTokens env (_id u))), (replaceById u1 c).
  split; [exact H1 |]. split.
  - unfold outstanding. change (_id u) with (_id u1). rewrite Hf1. exact Hin1.
  - eexists _, _, _.
    apply (refresh_token_success env' t (replaceById u1 c) u1 Hne Hv' Hf1 Hin1).
    exact Hvalid.
Qed.

(** C3: without a refresh token the route answers [MissingToken] (401); when
    [jwt.verify] refuses the supplied token the route hands the error to
    [next], the collection is untouched, and the error middleware answers
    [InvalidToken] (403). *)
Theorem refresh_token_rejections (env : Env) (refreshToken : JS.value) (c : Collection) :
  (JS.truthy refreshToken = false ->
   refresh_token env refreshToken c = (MissingToken, c))
  /\ (forall e : JwtError,
        JS.truthy refreshToken = true ->
        verifyRefreshToken env refreshToken = Throw e ->
        refresh_token env refreshToken c = (Next (Jwt e), c)
        /\ errorHandler (fst (refresh_token env refreshToken c)) = InvalidToken).
Proof.
  split.
  - intros Hfalsy. unfold refresh_token. rewrite Hfalsy. reflexivity.
  - intros e Htruthy Hthrow.
    assert (H : refresh_token env refreshToken c = (Next (Jwt e), c)).
    { unfold refresh_token. rewrite Htruthy, Hthrow. reflexivity. }
    split; [exact H | rewrite H; reflexivity].
Qed.

(** *** The login route *)

(** C2: an unknown email and a failed hash comparison end in the same
    [InvalidCredentials] response, whatever the active flag; a successful
    comparison on an account whose active flag is false ends in
    [AccountDeactivated], which is a different response.  Nothing is
    written in any of the three cases. *)
Theorem login_failures (env : Env) (body : Login.body) (c : Collection) :
  (findOne_email (Login.email body) c = None ->
   login env body c = (InvalidCredentials, c))
  /\ (forall user : Document,
        findOne_email (Login.email body) c = Some user ->
        comparePassword user (Login.password body) = Ok false ->
        login env body c = (InvalidCredentials, c))
  /\ (forall user : Document,
        findOne_email (Login.email body) c = Some user ->
        comparePassword user (Login.password body) = Ok true ->
        isActive (fields user) = false ->
        login env body c = (AccountDeactivated, c))
  /\ AccountDeactivated <> InvalidCredentials.
Proof.
  repeat split.
  - intros Hnone. unfold login. rewrite Hnone. reflexivity.
  - intros user Hfound Hcmp. unfold login. rewrite Hfound, Hcmp. reflexivity.
  - intros user Hfound Hcmp Hinactive. unfold login.
    rewrite Hfound, Hcmp, Hinactive. reflexivity.
  - discriminate.
Qed.

Lemma login_success (env : Env) (body : Login.body) (c : Collection) (u : User) :
  findOne_email (Login.email body) c = Some (hydrate u) ->
  comparePassword (hydrate u) (Login.password body) = Ok true ->
  isActive u = true ->
  validAccount u = true ->
  let tokens := generateTokens env (_id u) in
  let u1 := set_refreshTokens
              (refreshTokens u ++ [mkRefreshToken (snd tokens) (now env)]) u in
  login env body c
  = (Respond 200
       (Session "Login successful" (toJSON (assign_password None (hydrate u1)))
          (fst tokens) (snd tokens)),
     replaceById u1 c).
Proof.
  intros Hfound Hcmp Hactive Hvalid tokens u1. unfold login.
  rewrite Hfound, Hcmp. cbn [fields hydrate]. rewrite Hactive. cbn [negb].
  fold tokens. destruct tokens as [accessToken refreshToken] eqn:Htok.
  rewrite (save_appended_token _ _ _ _ Hvalid). reflexivity.
Qed.

(** *** The logout route *)

Lemma logout_token (env : Env) (t : string) (c : Collection) (u : User) :
  t <> "" ->
  findById (_id u) c = Some (hydrate u) ->
  validAccount u = true ->
  logout env (_id u) (Some (JS.JStr t)) c
  = (Respond 200 (Message "Logged out successfully"),
     replaceById
       (set_refreshTokens (filter (isNotToken (Some (JS.JStr t))) (refreshTokens u)) u) c).
Proof.
  intros Hne Hf Hvalid. unfold logout. rewrite Hf, (truthy_JStr t Hne).
  cbn [fields hydrate]. rewrite (save_assigned_tokens _ _ _ _ Hvalid). reflexivity.
Qed.

(** C6: on a stored account every path of which passes its validators (as
    [save()] requires of a document it loaded), logout with the token [B]
    answers 200 and replaces the account by itself with [B] filtered out of
    [refreshTokens] and no other path changed; every other token of the
    account stays, every other account is as it was, and a refresh with
    another outstanding token [A] then succeeds.  With a token that is not
    outstanding the answer is the same 200 and every account reads as
    before. *)
Theorem logout_removes_only_that_token
    (env env' : Env) (A B : string) (c : Collection) (u : User) :
  findById (_id u) c = Some (hydrate u) ->
  validAccount u = true ->
  In A (map token (refreshTokens u)) ->
  In B (map token (refreshTokens u)) ->
  A <> B -> A <> "" -> B <> "" ->
  let u1 := set_refreshTokens
              (filter (isNotToken (Some (JS.JStr B))) (refreshTokens u)) u in
  logout env (_id u) (Some (JS.JStr B)) c
  = (Respond 200 (Message "Logged out successfully"), replaceById u1 c)
  /\ findById (_id u) (replaceById u1 c) = Some (hydrate u1)
  /\ otherPaths u1 = otherPaths u
  /\ (forall t, In t (outstanding (_id u) (replaceById u1 c))
               <-> In t (outstanding (_id u) c) /\ t <> B)
  /\ (forall id, id <> _id u -> findById id (replaceById u1 c) = findById id c)
  /\ (jwt_verify A (JWT_REFRESH_SECRET cfg) (now env' / 1000) = Ok (_id u) ->
      exists a r c2,
        refresh_token env' (Some (JS.JStr A)) (replaceById u1 c)
        = (Respond 200 (Tokens a r), c2))
  /\ (forall T, T <> "" -> ~ In T (map token (refreshTokens u)) ->
      fst (logout env (_id u) (Some (JS.JStr T)) c)
      = Respond 200 (Message "Logged out successfully")
      /\ forall id, findById id (snd (logout env (_id u) (Some (JS.JStr T)) c))
                    = findById id c).
Proof.
  intros Hf Hvalid HA HB HAB HAne HBne u1.
  assert (Hf1 : findById (_id u) (replaceById u1 c) = Some (hydrate u1)).
  { apply (findById_replaceById_same u u1 c Hf). reflexivity. }
  split; [apply (logout_token env B c u HBne Hf Hvalid) |].
  split; [exact Hf1 |].
  split; [reflexivity |].
  split.
  { intros t. unfold outstanding. rewrite Hf1, Hf. cbn [fields hydrate].
    unfold u1. cbn [refreshTokens set_refreshTokens]. apply filter_isNotToken_In. }
  split.
  { intros id Hid. apply findById_replaceById_other. exact Hid. }
  split.
  { intros Hv. eexists _, _, _.
    apply (refresh_token_success env' A (replaceById u1 c) u1 HAne Hv Hf1);
      [| exact Hvalid].
    unfold u1. cbn [refreshTokens set_refreshTokens].
    apply filter_isNotToken_In. split; assumption. }
  intros T HTne HT. rewrite (logout_token env T c u HTne Hf Hvalid). cbn [fst snd].
  split; [reflexivity |].
  rewrite (filter_isNotToken_absent T _ HT), set_refreshTokens_same.
  intros id. destruct (N.eq_dec id (_id u)) as [-> | Hid].
  - rewrite Hf. apply (findById_replaceById_same u u c Hf). reflexivity.
  - apply findById_replaceById_other. exact Hid.
Qed.

(** C9: the refresh route never reads [isActive]: on a stored account
    whose flag is false, whose paths pass their validators and that holds
    the verified token [t], it answers 200 with a new pair and stores the
    rotation, while a login with the right password on that account answers
    [AccountDeactivated]. *)
Theorem refresh_ignores_active_flag
    (env env' : Env) (t : string) (body : Login.body) (c : Collection) (u : User) :
  isActive u = false ->
  findById (_id u) c = Some (hydrate u) ->
  validAccount u = true ->
  In t (map token (refreshTokens u)) ->
  t <> "" ->
  jwt_verify t (JWT_REFRESH_SECRET cfg) (now env / 1000) = Ok (_id u) ->
  findOne_email (Login.email body) c = Some (hydrate u) ->
  comparePassword (hydrate u) (Login.password body) = Ok true ->
  (let tokens := generateTokens env (_id u) in
   fst (refresh_token env (Some (JS.JStr t)) c)
   = Respond 200 (Tokens (fst tokens) (snd tokens))
   /\ In (snd tokens) (outstanding (_id u) (snd (refresh_token env (Some (JS.JStr t)) c))))
  /\ login env' body c = (AccountDeactivated, c).
Proof.
  intros Hinactive Hf Hvalid Hin Hne Hv Hfound Hcmp. split.
  - rewrite (refresh_token_success env t c u Hne Hv Hf Hin Hvalid). cbn [fst snd].
    split; [reflexivity |].
    rewrite outstanding_after_refresh by exact Hf.
    apply in_or_app. right. left. reflexivity.
  - unfold login. rewrite Hfound, Hcmp. cbn [fields hydrate].
    rewrite Hinactive. reflexivity.
Qed.

(** *** The signup route *)

Lemma find_exists {A : Type} (p : A -> bool) (l : list A) (x : A) :
  In x l -> p x = true -> exists y, find p l = Some y.
Proof.
  induction l as [| a l IH]; intros Hin Hp; [contradiction |].
  cbn [find]. destruct (p a) eqn:Hpa; [eauto |].
  destruct Hin as [-> | Hin]; [congruence | auto].
Qed.

Lemma find_snoc {A : Type} (p : A -> bool) (l : list A) (x : A) :
  find p (l ++ [x])
  = match find p l with
    | Some y => Some y
    | None => if p x then Some x else None
    end.
Proof.
  induction l as [| a l IH]; [reflexivity |].
  cbn [app find]. destruct (p a); [reflexivity | exact IH].
Qed.

Lemma duplicateKey_false_id (u : User) (c : Collection) :
  duplicateKey u c = false -> find (fun v => N.eqb (_id v) (_id u)) c = None.
Proof.
  unfold duplicateKey. induction c as [| v c IH]; [reflexivity |].
  cbn [existsb find]. intros H. apply orb_false_iff in H. destruct H as [Hv Hc].
  apply orb_false_iff in Hv. destruct Hv as [Hv _].
  apply orb_false_iff in Hv. destruct Hv as [Hv _].
  rewrite Hv. apply IH. exact Hc.
Qed.

Lemma save_new_User (env : Env) (body : Signup.body) (c : Collection)
    (d : Document) (c1 : Collection) :
  save env (new_User (objectId env) (Signup.username body) (Signup.email body)
              (Signup.password body) (Signup.firstName body) (Signup.lastName body)) c
  = Ok (d, c1) ->
  d = inserted (createdAccount env body)
  /\ c1 = (c ++ [createdAccount env body])%list
  /\ duplicateKey (createdAccount env body) c = false.
Proof.
  unfold save. destruct (validate _) as [| bad rest]; [| discriminate].
  cbn [preSave new_User isModified modifiedPaths existsb String.eqb Ascii.eqb
       Bool.eqb negb orb fields password isNew assign_password markModified].
  match goal with
  | |- context [duplicateKey ?x c] => change x with (createdAccount env body)
  end.
  destruct (duplicateKey (createdAccount env body) c); [discriminate |].
  intros H. inversion H. auto.
Qed.

Lemma signup_created (env : Env) (body : Signup.body) (c : Collection)
    (s : nat) (m : string) (user : JS.object) (a r : string) (c1 : Collection) :
  signup env body c = (Respond s (Session m user a r), c1) ->
  findOne_email_or_username (Signup.email body) (Signup.username body) c = None
  /\ duplicateKey (createdAccount env body) c = false
  /\ c1 = replaceById (registeredAccount env body) (c ++ [createdAccount env body])%list
  /\ s = 201
  /\ user = toJSON (hydrate (registeredAccount env body))
  /\ (a, r) = generateTokens env (objectId env).
Proof.
  unfold signup.
  destruct (findOne_email_or_username _ _ c) as [existing |]; [discriminate |].
  destruct (save env (new_User _ _ _ _ _ _) c) as [[d c'] | e] eqn:Hsave;
    [| discriminate].
  apply save_new_User in Hsave. destruct Hsave as (-> & -> & Hdup).
  cbn [fields inserted]. change (_id (createdAccount env body)) with (objectId env).
  destruct (generateTokens env (objectId env)) as [accessToken refreshToken] eqn:Htok.
  case_save env (c ++ [createdAccount env body])%list; [discriminate |].
  cbn [fields push_refreshToken assign_refreshTokens markModified inserted].
  change (refreshTokens (createdAccount env body)) with (@nil RefreshToken).
  cbn [app]. intros H. inversion H; subst.
  unfold registeredAccount. rewrite Htok. cbn [snd]. auto 10.
Qed.

Lemma validAccount_hashed (u : User) (p h : string) :
  validAccount (set_password (Some p) u) = true ->
  (6 <= String.length h)%nat ->
  validAccount (set_password (Some h) u) = true.
Proof using Type.
  unfold validAccount, validators. cbn [forallb snd]. intros H Hlen.
  apply andb_true_iff in H. destruct H as [Hname H].
  apply andb_true_iff in H. destruct H as [Hemail H].
  apply andb_true_iff in H. destruct H as [_ H].
  apply andb_true_iff. split; [exact Hname |].
  apply andb_true_iff. split; [exact Hemail |].
  apply andb_true_iff. split; [| exact H].
  unfold valid_password, required. cbn [password set_password].
  apply andb_true_iff. split; [| apply Nat.leb_le; exact Hlen].
  destruct h; [cbn in Hlen; lia | reflexivity].
Qed.

(** The account the first save of a signup stores passes every validator,
    the password one on the hash. *)
Lemma save_new_User_valid (env : Env) (body : Signup.body) (c : Collection)
    (d : Document) (c1 : Collection) :
  save env (new_User (objectId env) (Signup.username body) (Signup.email body)
              (Signup.password body) (Signup.firstName body) (Signup.lastName body)) c
  = Ok (d, c1) ->
  validAccount (createdAccount env body) = true.
Proof.
  set (d0 := new_User (objectId env) (Signup.username body) (Signup.email body)
               (Signup.password body) (Signup.firstName body) (Signup.lastName body)).
  intros Hsave.
  assert (Hval : validAccount (fields d0) = true).
  { destruct (validAccount (fields d0)) eqn:Hv; [reflexivity |].
    pose proof (validate_invalid d0 eq_refl Hv) as Hne.
    unfold save in Hsave. destruct (validate d0); [contradiction | discriminate]. }
  exact (validAccount_hashed (fields d0) (Signup.password body) _ Hval
           (bcrypt_hash_length _ _)).
Qed.

Lemma signup_registers_valid (env : Env) (body : Signup.body) (c : Collection)
    (s : nat) (m : string) (user : JS.object) (a r : string) (c1 : Collection) :
  signup env body c = (Respond s (Session m user a r), c1) ->
  validAccount (registeredAccount env body) = true.
Proof.
  unfold signup.
  destruct (findOne_email_or_username _ _ c) as [existing |]; [discriminate |].
  destruct (save env (new_User _ _ _ _ _ _) c) as [[d' c'] | e] eqn:Hsave;
    [| discriminate].
  intros _. unfold registeredAccount. rewrite validAccount_set_refreshTokens.
  exact (save_new_User_valid env body c d' c' Hsave).
Qed.

Lemma signup_stores_account (env : Env) (body : Signup.body) (c : Collection)
    (s : nat) (m : string) (user : JS.object) (a r : string) (c1 : Collection) :
  signup env body c = (Respond s (Session m user a r), c1) ->
  findById (objectId env) c1 = Some (hydrate (registeredAccount env body))
  /\ In (registeredAccount env body) c1.
Proof.
  intros H. apply signup_created in H. destruct H as (_ & Hdup & -> & _).
  apply duplicateKey_false_id in Hdup.
  change (_id (createdAccount env body)) with (objectId env) in Hdup.
  split.
  - unfold findById. change (objectId env) with (_id (registeredAccount env body)) at 1.
    rewrite find_replaceById.
    change (_id (registeredAccount env body)) with (objectId env).
    rewrite find_snoc, Hdup.
    change (_id (createdAccount env body)) with (objectId env).
    rewrite N.eqb_refl. cbn. rewrite N.eqb_refl. reflexivity.
  - unfold replaceById. rewrite map_app. apply in_or_app. right. cbn.
    rewrite N.eqb_refl. left. reflexivity.
Qed.

(** When the lookup finds an account the route answers 400 with one of the
    two messages and writes nothing.  The email message is given only when
    the account found holds exactly the email of the request; the username
    message names a username that is held whenever the email of the request
    is already in lower case. *)
Lemma signup_duplicate_identity (env : Env) (body : Signup.body) (c : Collection)
    (u : User) :
  In u c ->
  email u = cast_email (Signup.email body)
  \/ username u = cast_username (Signup.username body) ->
  exists v,
    In v c
    /\ signup env body c
       = (Respond 400
            (Message (if email v =? Signup.email body
                      then "Email already registered"
                      else "Username already taken")), c)
    /\ DuplicateIdentity (fst (signup env body c))
    /\ (email v <> Signup.email body ->
        Signup.email body = cast_email (Signup.email body) ->
        username v = cast_username (Signup.username body)).
Proof.
  intros Hin Hheld.
  destruct (find_exists
              (fun v => (email v =? cast_email (Signup.email body))
                        || (username v =? cast_username (Signup.username body)))
              c u Hin) as [v Hfind].
  { apply orb_true_iff. destruct Hheld as [He | Hn]; [left | right];
      now apply String.eqb_eq. }
  assert (Hs : signup env body c
               = (Respond 400
                    (Message (if email v =? Signup.email body
                              then "Email already registered"
                              else "Username already taken")), c)).
  { unfold signup, findOne_email_or_username. rewrite Hfind. reflexivity. }
  apply find_some in Hfind as Hv. destruct Hv as [Hvin Hvp].
  exists v. split; [exact Hvin |]. split; [exact Hs |]. split.
  - rewrite Hs. cbn [fst]. unfold DuplicateIdentity.
    destruct (email v =? Signup.email body); [left | right]; reflexivity.
  - intros Hne Hlower. apply orb_true_iff in Hvp. destruct Hvp as [He | Hn].
    + apply String.eqb_eq in He. congruence.
    + now apply String.eqb_eq.
Qed.

(** C4 (the code departs from the claim): the lookup matches the email after
    lower-casing it, but the message is chosen by comparing the stored email
    with the email as it was sent.  When the request spells a held email with
    an upper-case letter and its username is held by nobody, the route still
    answers 400 and creates nothing, but the message is the username one. *)
Theorem signup_email_case_variant_blames_username
    (env : Env) (body : Signup.body) (c : Collection) (u : User) :
  In u c ->
  email u = JS.toLowerCase (Signup.email body) ->
  Signup.email body <> JS.toLowerCase (Signup.email body) ->
  (forall v, In v c -> username v <> JS.trim (Signup.username body)) ->
  signup env body c = (Respond 400 (Message "Username already taken"), c).
Proof.
  intros Hin Hemail Hcase Hfree.
  destruct (find_exists
              (fun v => (email v =? cast_email (Signup.email body))
                        || (username v =? cast_username (Signup.username body)))
              c u Hin) as [x Hfind].
  { apply orb_true_iff. left. now apply String.eqb_eq. }
  unfold signup, findOne_email_or_username. rewrite Hfind.
  cbn [option_map hydrate fields].
  apply find_some in Hfind. destruct Hfind as [Hxin Hxp].
  destruct (String.eqb_spec (email x) (Signup.email body)) as [Hx | Hx];
    [exfalso | reflexivity].
  apply orb_true_iff in Hxp. destruct Hxp as [He | Hn].
  - apply String.eqb_eq in He. unfold cast_email in He. congruence.
  - apply String.eqb_eq in Hn. exact (Hfree x Hxin Hn).
Qed.

(** C5: once a signup has succeeded, a second signup whose email differs
    from the first only in letter case, or whose username is the same, is
    answered with [DuplicateIdentity] and writes nothing. *)
Theorem signup_twice_fails_second
    (env1 env2 : Env) (body1 body2 : Signup.body) (c c1 : Collection)
    (s : nat) (m : string) (user : JS.object) (a r : string) :
  signup env1 body1 c = (Respond s (Session m user a r), c1) ->
  JS.toLowerCase (Signup.email body2) = JS.toLowerCase (Signup.email body1)
  \/ Signup.username body2 = Signup.username body1 ->
  DuplicateIdentity (fst (signup env2 body2 c1))
  /\ snd (signup env2 body2 c1) = c1.
Proof.
  intros Hfirst Hsame.
  apply signup_stores_account in Hfirst. destruct Hfirst as [_ Hin].
  destruct (signup_duplicate_identity env2 body2 c1 (registeredAccount env1 body1) Hin)
    as (v & _ & Hs & Hdup & _).
  { destruct Hsame as [He | Hn]; [left | right].
    - cbn. unfold cast_email. symmetry. exact He.
    - cbn. rewrite Hn. reflexivity. }
  split; [exact Hdup | rewrite Hs; reflexivity].
Qed.

(** *** What a session response shows of the account *)

Lemma toJSON_omits_password (d : Document) : JS.get "password" (toJSON d) = None.
Proof.
  destruct d as [u n ld m].
  destruct u as [i un em pw fn ln img ro act rts wl fav wh pr prt pre].
  destruct pw, prt, pre; reflexivity.
Qed.

Lemma toJSON_ignores_password (p : option string) (d : Document) :
  toJSON (assign_password p d) = toJSON d.
Proof.
  destruct d as [u n ld m].
  destruct u as [i un em pw fn ln img ro act rts wl fav wh pr prt pre].
  destruct p, pw, prt, pre; reflexivity.
Qed.

(** C8: the [user] object of a session response, from signup or from login,
    has no [password] member; what [toJSON] returns is the same whatever the
    document holds as password. *)
Theorem session_user_omits_password
    (env : Env) (c c1 : Collection) (s : nat) (m : string) (user : JS.object)
    (a r : string) :
  (forall body : Signup.body,
      signup env body c = (Respond s (Session m user a r), c1) ->
      JS.get "password" user = None)
  /\ (forall body : Login.body,
        login env body c = (Respond s (Session m user a r), c1) ->
        JS.get "password" user = None)
  /\ (forall (p : option string) (d : Document),
        toJSON (assign_password p d) = toJSON d).
Proof.
  split; [| split; [| exact toJSON_ignores_password]].
  - intros body H. apply signup_created in H.
    destruct H as (_ & _ & _ & _ & -> & _). apply toJSON_omits_password.
  - intros body. unfold login.
    destruct (findOne_email _ c) as [d |]; [| discriminate].
    destruct (comparePassword d _) as [[|] | e]; try discriminate.
    destruct (isActive (fields d)); cbn [negb]; [| discriminate].
    destruct (generateTokens env _) as [accessToken refreshToken].
    destruct (save env _ c) as [[d' c'] | e]; [| discriminate].
    intros H. inversion H. apply toJSON_omits_password.
Qed.

(** *** The stored hash *)

Lemma refresh_token_effect (env : Env) (refreshToken : JS.value) (c : Collection) :
  tokensRewritten c (snd (refresh_token env refreshToken c)).
Proof.
  unfold refresh_token.
  destruct (JS.truthy refreshToken); cbn [negb]; [| left; reflexivity].
  destruct (verifyRefreshToken env refreshToken) as [id | e]; [| left; reflexivity].
  destruct (findById id c) as [d |] eqn:Hf; [| left; reflexivity].
  apply findById_hydrate in Hf. destruct Hf as (u & -> & Hin & _).
  destruct (existsb _ _); cbn [negb]; [| left; reflexivity].
  cbn [fields hydrate]. case_save env c; [left; reflexivity |].
  cbn [snd]; right; eexists _, _; (split; [exact Hin | reflexivity]).
Qed.

Lemma logout_effect (env : Env) (userId : ObjectId) (refreshToken : JS.value)
    (c : Collection) :
  tokensRewritten c (snd (logout env userId refreshToken c)).
Proof.
  unfold logout.
  destruct (findById userId c) as [d |] eqn:Hf; [| left; reflexivity].
  apply findById_hydrate in Hf. destruct Hf as (u & -> & Hin & _).
  destruct (JS.truthy refreshToken); cbn [fields hydrate];
    (case_save env c; [left; reflexivity |]); cbn [snd]; right; eexists _, _;
    (split; [exact Hin | reflexivity]).
Qed.

Lemma login_effect (env : Env) (body : Login.body) (c : Collection) :
  tokensRewritten c (snd (login env body c)).
Proof.
  unfold login, findOne_email.
  destruct (find _ c) as [u |] eqn:Hf; [| left; reflexivity].
  apply find_some in Hf. destruct Hf as [Hin _]. cbn [option_map].
  destruct (comparePassword (hydrate u) _) as [[|] | e]; try (left; reflexivity).
  cbn [fields hydrate]. destruct (isActive u); cbn [negb]; [| left; reflexivity].
  destruct (generateTokens env (_id u)) as [accessToken refreshToken].
  case_save env c; [left; reflexivity |].
  cbn [snd]; right; eexists _, _; (split; [exact Hin | reflexivity]).
Qed.

Lemma tokensRewritten_storedPassword (c c' : Collection) (id : ObjectId) :
  uniqueIds c = true -> tokensRewritten c c' ->
  storedPassword id c' = storedPassword id c.
Proof.
  intros Huniq [-> | (u & l & Hin & ->)]; [reflexivity |].
  unfold storedPassword, findById. rewrite find_replaceById.
  change (_id (set_refreshTokens l u)) with (_id u).
  destruct (find _ c) as [v |] eqn:Hf; [| reflexivity].
  cbn [option_map hydrate fields].
  destruct (N.eqb_spec (_id v) (_id u)) as [Heq | Hne]; [| reflexivity].
  apply find_some in Hf as Hv. destruct Hv as [_ Hid]. apply N.eqb_eq in Hid.
  pose proof (uniqueIds_find u c Huniq Hin) as Hu.
  rewrite <- Heq, Hid, Hf in Hu. inversion Hu. reflexivity.
Qed.

Lemma existsb_id (x : ObjectId) (c : Collection) :
  existsb (fun v => N.eqb (_id v) x) c = existsb (fun i => N.eqb i x) (map _id c).
Proof. induction c as [| v c IH]; [reflexivity |]. cbn. rewrite IH. reflexivity. Qed.

Lemma uniqueIds_ids (c c' : Collection) :
  map _id c = map _id c' -> uniqueIds c = uniqueIds c'.
Proof.
  revert c'. induction c as [| u c IH]; intros [| u' c'] H; try discriminate;
    [reflexivity |].
  cbn in H. inversion H as [[Hu Hc]]. cbn [uniqueIds].
  rewrite !existsb_id, Hu, Hc, (IH c' Hc). reflexivity.
Qed.

Lemma map_id_replaceById (u : User) (c : Collection) :
  map _id (replaceById u c) = map _id c.
Proof.
  unfold replaceById. induction c as [| v c IH]; [reflexivity |].
  cbn [map]. rewrite IH. destruct (N.eqb_spec (_id v) (_id u)); congruence.
Qed.

Lemma tokensRewritten_uniqueIds (c c' : Collection) :
  tokensRewritten c c' -> uniqueIds c' = uniqueIds c.
Proof.
  intros [-> | (u & l & _ & ->)]; [reflexivity |].
  apply uniqueIds_ids, map_id_replaceById.
Qed.

(** C10: the second [save()] of a signup does not hash again: the account
    stored under the new [_id] holds [bcrypt.hash(password, salt)], hashed
    once, so [comparePassword] accepts the password whenever [bcrypt.compare]
    accepts a password against its own hash.  Refresh, logout and login leave
    the stored hash of every account as it was, and keep the ids unique. *)
Theorem password_hashed_once_and_kept (env : Env) (c : Collection) :
  (forall (body : Signup.body) s m user a r c1,
      signup env body c = (Respond s (Session m user a r), c1) ->
      storedPassword (objectId env) c1
      = Some (bcrypt_hash (Signup.password body) (salt env))
      /\ (bcrypt_compare (Signup.password body)
            (bcrypt_hash (Signup.password body) (salt env)) = true ->
          exists d, findById (objectId env) c1 = Some d
                    /\ comparePassword d (Signup.password body) = Ok true))
  /\ (uniqueIds c = true ->
      forall c',
        (exists refreshToken, c' = snd (refresh_token env refreshToken c))
        \/ (exists userId refreshToken, c' = snd (logout env userId refreshToken c))
        \/ (exists body, c' = snd (login env body c)) ->
        uniqueIds c' = true
        /\ forall id, storedPassword id c' = storedPassword id c).
Proof.
  split.
  - intros body s m user a r c1 H.
    apply signup_stores_account in H. destruct H as [Hf _].
    split.
    + unfold storedPassword. rewrite Hf. reflexivity.
    + intros Hcmp. eexists. split; [exact Hf |].
      unfold comparePassword. cbn. rewrite Hcmp. reflexivity.
  - intros Huniq c' Hop.
    assert (Hrw : tokensRewritten c c').
    { destruct Hop as [[t ->] | [[uid [t ->]] | [body ->]]].
      - apply refresh_token_effect.
      - apply logout_effect.
      - apply login_effect. }
    split.
    + rewrite (tokensRewritten_uniqueIds c c' Hrw). exact Huniq.
    + intros id. apply tokensRewritten_storedPassword; assumption.
Qed.

(** *** The ids stay unique *)

Lemma duplicateKey_false_fresh (u : User) (c : Collection) :
  duplicateKey u c = false -> existsb (fun v => N.eqb (_id v) (_id u)) c = false.
Proof.
  unfold duplicateKey. induction c as [| v c IH]; [reflexivity |].
  cbn [existsb]. intros H. apply orb_false_iff in H. destruct H as [Hv Hc].
  apply orb_false_iff in Hv. destruct Hv as [Hv _].
  apply orb_false_iff in Hv. destruct Hv as [Hv _].
  rewrite Hv. apply IH. exact Hc.
Qed.

Lemma uniqueIds_snoc (u : User) (c : Collection) :
  uniqueIds c = true -> existsb (fun v => N.eqb (_id v) (_id u)) c = false ->
  uniqueIds (c ++ [u])%list = true.
Proof.
  induction c as [| v c IH]; intros Huniq Hfresh; [reflexivity |].
  cbn [uniqueIds app] in *. cbn [existsb] in Hfresh.
  apply andb_true_iff in Huniq. destruct Huniq as [Hv Hc].
  apply orb_false_iff in Hfresh. destruct Hfresh as [Hvu Hcu].
  rewrite existsb_app. cbn [existsb]. rewrite (N.eqb_sym (_id u) (_id v)), Hvu.
  apply negb_true_iff in Hv. rewrite Hv. cbn. apply IH; assumption.
Qed.

(** Every route hands on a collection whose ids are unique when it was given
    one. *)
Lemma routes_keep_ids_unique (env : Env) (c : Collection) :
  uniqueIds c = true ->
  (forall body, uniqueIds (snd (signup env body c)) = true)
  /\ (forall body, uniqueIds (snd (login env body c)) = true)
  /\ (forall refreshToken, uniqueIds (snd (refresh_token env refreshToken c)) = true)
  /\ (forall userId refreshToken,
        uniqueIds (snd (logout env userId refreshToken c)) = true).
Proof.
  intros Huniq. split; [| split; [| split]].
  - intros body. unfold signup.
    destruct (findOne_email_or_username _ _ c) as [existing |]; [exact Huniq |].
    destruct (save env (new_User _ _ _ _ _ _) c) as [[d c'] | e] eqn:Hsave;
      [| exact Huniq].
    apply save_new_User in Hsave. destruct Hsave as (-> & -> & Hdup).
    apply duplicateKey_false_fresh in Hdup.
    pose proof (uniqueIds_snoc _ c Huniq Hdup) as Huniq1.
    cbn [fields inserted].
    destruct (generateTokens env _) as [accessToken refreshToken].
    case_save env (c ++ [createdAccount env body])%list; cbn [snd];
      [exact Huniq1 |].
    rewrite (uniqueIds_ids _ _ (map_id_replaceById _ _)). exact Huniq1.
  - intros body. rewrite (tokensRewritten_uniqueIds c _ (login_effect env body c)).
    exact Huniq.
  - intros t. rewrite (tokensRewritten_uniqueIds c _ (refresh_token_effect env t c)).
    exact Huniq.
  - intros uid t. rewrite (tokensRewritten_uniqueIds c _ (logout_effect env uid t c)).
    exact Huniq.
Qed.

(** *** The stored accounts stay valid *)

Lemma tokensRewritten_valid (c c' : Collection) :
  forallb validAccount c = true -> tokensRewritten c c' ->
  forallb validAccount c' = true.
Proof using Type.
  intros Hc [-> | (u & l & Hin & ->)]; [exact Hc |].
  rewrite forallb_forall in Hc.
  apply forallb_forall. intros v Hv. unfold replaceById in Hv.
  apply in_map_iff in Hv. destruct Hv as (w & <- & Hw).
  destruct (N.eqb (_id w) (_id (set_refreshTokens l u))).
  - rewrite validAccount_set_refreshTokens. apply Hc. exact Hin.
  - apply Hc. exact Hw.
Qed.

(** The precondition of the properties of stored accounts is kept by the
    routes: when every stored account passes its validators, so does every
    account stored after a request to signup, login, refresh or logout. *)
Lemma auth_routes_keep_accounts_valid (env : Env) (c : Collection) :
  forallb validAccount c = true ->
  (forall body, forallb validAccount (snd (signup env body c)) = true)
  /\ (forall body, forallb validAccount (snd (login env body c)) = true)
  /\ (forall refreshToken,
        forallb validAccount (snd (refresh_token env refreshToken c)) = true)
  /\ (forall userId refreshToken,
        forallb validAccount (snd (logout env userId refreshToken c)) = true).
Proof.
  intros Hc. split; [| split; [| split]].
  - intros body. unfold signup.
    destruct (findOne_email_or_username _ _ c) as [existing |]; [exact Hc |].
    destruct (save env (new_User _ _ _ _ _ _) c) as [[d c'] | e] eqn:Hsave;
      [| exact Hc].
    pose proof (save_new_User_valid env body c d c' Hsave) as Hreg.
    apply save_new_User in Hsave. destruct Hsave as (-> & -> & _).
    cbn [fields inserted].
    destruct (generateTokens env _) as [accessToken refreshToken].
    rewrite (save_inserted_token _ _ _ _ Hreg). cbn [snd].
    rewrite forallb_forall in Hc.
    apply forallb_forall. intros v Hv. unfold replaceById in Hv.
    apply in_map_iff in Hv. destruct Hv as (w & <- & Hw).
    destruct (N.eqb _ _).
    + rewrite validAccount_set_refreshTokens. exact Hreg.
    + apply in_app_or in Hw. destruct Hw as [Hw | [<- | []]];
        [apply Hc; exact Hw | exact Hreg].
  - intros body. apply (tokensRewritten_valid c _ Hc), login_effect.
  - intros t. apply (tokensRewritten_valid c _ Hc), refresh_token_effect.
  - intros uid t. apply (tokensRewritten_valid c _ Hc), logout_effect.
Qed.

(** *** More on logout and refresh *)

(** Logout without a token (absent, [null], empty) on a stored account
    whose paths pass their validators stores the account with no refresh
    token at all and leaves the other accounts alone; a refresh with any
    token of that account is then refused and writes nothing. *)
Theorem logout_without_token_revokes_all
    (env env' : Env) (refreshToken : JS.value) (c : Collection) (u : User) :
  JS.truthy refreshToken = false ->
  findById (_id u) c = Some (hydrate u) ->
  validAccount u = true ->
  let c1 := replaceById (set_refreshTokens [] u) c in
  logout env (_id u) refreshToken c
  = (Respond 200 (Message "Logged out successfully"), c1)
  /\ findById (_id u) c1 = Some (hydrate (set_refreshTokens [] u))
  /\ (forall id, id <> _id u -> findById id c1 = findById id c)
  /\ (forall t, t <> "" ->
      jwt_verify t (JWT_REFRESH_SECRET cfg) (now env' / 1000) = Ok (_id u) ->
      refresh_token env' (Some (JS.JStr t)) c1 = (InvalidToken, c1)).
Proof using Type.
  intros Hfalsy Hf Hvalid c1.
  assert (Hf1 : findById (_id u) c1 = Some (hydrate (set_refreshTokens [] u))).
  { apply (findById_replaceById_same u _ c Hf). reflexivity. }
  split.
  { unfold logout. rewrite Hf, Hfalsy. cbn [fields hydrate].
    rewrite (save_assigned_tokens _ _ _ _ Hvalid). reflexivity. }
  split; [exact Hf1 |]. split.
  { intros id Hid. apply findById_replaceById_other. exact Hid. }
  intros t Hne Hv. apply (refresh_token_unknown env' t c1 (_id u) Hne Hv).
  unfold outstanding. rewrite Hf1. cbn. intros [].
Qed.

(** Whatever it is given, logout answers 404 when the account is not
    stored, and then writes nothing.  On a stored account it answers 200
    when every path of the account passes its validators; when one does not,
    [save()] throws, the route hands the [ValidationError] to [next] and
    writes nothing.  It never changes an account other than the one named. *)
Theorem logout_outcomes
    (env : Env) (userId : ObjectId) (refreshToken : JS.value) (c : Collection) :
  (findById userId c = None ->
   logout env userId refreshToken c = (AccountNotFound, c))
  /\ (forall u, findById userId c = Some (hydrate u) ->
      (validAccount u = true ->
       fst (logout env userId refreshToken c)
       = Respond 200 (Message "Logged out successfully"))
      /\ (validAccount u = false ->
          exists paths,
            paths <> []
            /\ logout env userId refreshToken c = (Next (ValidationError paths), c)))
  /\ (forall id, id <> userId ->
      findById id (snd (logout env userId refreshToken c)) = findById id c).
Proof using Type.
  unfold logout. destruct (findById userId c) as [d |] eqn:Hf.
  - apply findById_hydrate in Hf. destruct Hf as (u & -> & _ & Hid & _).
    split; [discriminate |]. split.
    + intros u' Hu'. inversion Hu'. subst u'. split.
      * intros Hvalid. destruct (JS.truthy refreshToken); cbn [fields hydrate];
          rewrite (save_assigned_tokens _ _ _ _ Hvalid); reflexivity.
      * intros Hinv. destruct (JS.truthy refreshToken); cbn [fields hydrate];
          match goal with
          | |- context [save env ?d c] =>
              destruct (save_invalid env d c eq_refl Hinv) as [Hs Hne]; rewrite Hs
          end; (eexists; split; [exact Hne | reflexivity]).
    + intros id Hne. destruct (JS.truthy refreshToken); cbn [fields hydrate];
        (case_save env c; [reflexivity |]); cbn [snd];
        apply findById_replaceById_other; cbn; congruence.
  - split; [reflexivity |]. split; [discriminate | reflexivity].
Qed.

Lemma filter_isNotToken_shorter (t : string) (l : list RefreshToken) :
  In t (map token l) ->
  (List.length (filter (isNotToken (Some (JS.JStr t))) l) < List.length l)%nat.
Proof.
  induction l as [| r l IH]; intros Hin; [contradiction |].
  cbn [filter]. unfold isNotToken at 1. rewrite strictEqStr_JStr.
  destruct (String.eqb_spec (token r) t) as [Heq | Hne]; cbn [negb List.length].
  - pose proof (filter_length_le (isNotToken (Some (JS.JStr t))) l). lia.
  - destruct Hin as [Hr | Hin]; [contradiction |]. specialize (IH Hin). lia.
Qed.

(** When the token issued differs from the one presented, a refresh on a
    stored account whose paths pass their validators stores the account with
    every entry of the presented token removed and the issued one appended:
    the presented token is no longer outstanding, the issued one is, the
    other sessions of the account and the other accounts are kept, and the
    presented token is refused from then on. *)
Theorem refresh_rotation_single_use
    (env env' : Env) (t : string) (c : Collection) (u : User) :
  t <> "" ->
  jwt_verify t (JWT_REFRESH_SECRET cfg) (now env / 1000) = Ok (_id u) ->
  jwt_verify t (JWT_REFRESH_SECRET cfg) (now env' / 1000) = Ok (_id u) ->
  findById (_id u) c = Some (hydrate u) ->
  validAccount u = true ->
  In t (map token (refreshTokens u)) ->
  snd (generateTokens env (_id u)) <> t ->
  let issued := snd (generateTokens env (_id u)) in
  let c1 := snd (refresh_token env (Some (JS.JStr t)) c) in
  fst (refresh_token env (Some (JS.JStr t)) c)
  = Respond 200 (Tokens (fst (generateTokens env (_id u))) issued)
  /\ (forall s, In s (outstanding (_id u) c1)
               <-> (In s (outstanding (_id u) c) /\ s <> t) \/ s = issued)
  /\ (forall id, id <> _id u -> findById id c1 = findById id c)
  /\ (List.length (outstanding (_id u) c1) <= List.length (outstanding (_id u) c))%nat
  /\ refresh_token env' (Some (JS.JStr t)) c1 = (InvalidToken, c1).
Proof using Type.
  intros Hne Hv Hv' Hf Hvalid Hin Hfresh issued c1.
  pose proof (refresh_token_success env t c u Hne Hv Hf Hin Hvalid) as Hs.
  assert (Hout : outstanding (_id u) c1
                 = (map token (filter (isNotToken (Some (JS.JStr t))) (refreshTokens u))
                    ++ [issued])%list).
  { unfold c1. rewrite Hs. cbn [snd]. apply outstanding_after_refresh. exact Hf. }
  assert (Hold : outstanding (_id u) c = map token (refreshTokens u)).
  { unfold outstanding. rewrite Hf. reflexivity. }
  split; [rewrite Hs; reflexivity |]. split.
  { intros s. rewrite Hout, Hold, in_app_iff, filter_isNotToken_In. cbn [In].
    split; intros [H | H].
    - left. exact H.
    - right. destruct H as [H | []]. symmetry. exact H.
    - left. exact H.
    - right. left. symmetry. exact H. }
  split.
  { intros id Hid. unfold c1. rewrite Hs. cbn [snd].
    apply findById_replaceById_other. exact Hid. }
  split.
  { rewrite Hout, Hold, length_app, !length_map. cbn [List.length].
    pose proof (filter_isNotToken_shorter t _ Hin). lia. }
  apply (refresh_token_unknown env' t c1 (_id u) Hne Hv').
  rewrite Hout, in_app_iff, filter_isNotToken_In. cbn [In].
  intros [[_ Hcontra] | [Hi | []]]; [now apply Hcontra | contradiction].
Qed.

(** A request to an authentication route that is not answered with 200 or
    201 leaves the collection exactly as it was. *)
Theorem failed_requests_write_nothing (env : Env) (c : Collection) :
  (forall body, isSuccess (fst (signup env body c)) = false ->
                snd (signup env body c) = c)
  /\ (forall body, isSuccess (fst (login env body c)) = false ->
                   snd (login env body c) = c)
  /\ (forall refreshToken,
        isSuccess (fst (refresh_token env refreshToken c)) = false ->
        snd (refresh_token env refreshToken c) = c)
  /\ (forall userId refreshToken,
        isSuccess (fst (logout env userId refreshToken c)) = false ->
        snd (logout env userId refreshToken c) = c).
Proof using Type bcrypt_hash_length.
  split; [| split; [| split]].
  - intros body. unfold signup.
    destruct (findOne_email_or_username _ _ c) as [existing |]; [reflexivity |].
    destruct (save env (new_User _ _ _ _ _ _) c) as [[d c'] | e] eqn:Hsave;
      [| reflexivity].
    pose proof (save_new_User_valid env body c d c' Hsave) as Hvalid.
    apply save_new_User in Hsave. destruct Hsave as (-> & -> & _).
    cbn [fields inserted].
    destruct (generateTokens env _) as [accessToken refreshToken].
    rewrite (save_inserted_token _ _ _ _ Hvalid). cbn [fst snd isSuccess].
    discriminate.
  - intros body. unfold login.
    destruct (findOne_email _ c) as [d |] eqn:Hf; [| reflexivity].
    unfold findOne_email in Hf. destruct (find _ c) as [u |]; [| discriminate].
    inversion Hf. subst d.
    destruct (comparePassword (hydrate u) _) as [[|] | e]; try reflexivity.
    cbn [fields hydrate]. destruct (isActive u); cbn [negb]; [| reflexivity].
    destruct (generateTokens env _) as [accessToken refreshToken].
    case_save env c; [reflexivity |]. cbn [fst snd isSuccess]. discriminate.
  - intros refreshToken. unfold refresh_token.
    destruct (JS.truthy refreshToken); cbn [negb]; [| reflexivity].
    destruct (verifyRefreshToken env refreshToken) as [id | e]; [| reflexivity].
    destruct (findById id c) as [d |] eqn:Hf; [| reflexivity].
    apply findById_hydrate in Hf. destruct Hf as (u & -> & _).
    destruct (existsb _ _); cbn [negb]; [| reflexivity].
    cbn [fields hydrate]. case_save env c; [reflexivity |].
    cbn [fst snd isSuccess]. discriminate.
  - intros userId refreshToken. unfold logout.
    destruct (findById userId c) as [d |] eqn:Hf; [| reflexivity].
    apply findById_hydrate in Hf. destruct Hf as (u & -> & _).
    destruct (JS.truthy refreshToken); cbn [fields hydrate];
      (case_save env c; [reflexivity |]); cbn [fst snd isSuccess]; discriminate.
Qed.

(** *** More on signup and login *)

Lemma find_all_false {A : Type} (p : A -> bool) (l : list A) :
  (forall x, In x l -> p x = false) -> find p l = None.
Proof.
  induction l as [| a l IH]; intros H; [reflexivity |].
  cbn [find]. rewrite (H a (or_introl eq_refl)). apply IH.
  intros x Hx. apply H. right. exact Hx.
Qed.

Lemma lookup_none (e n : string) (c : Collection) :
  findOne_email_or_username e n c = None ->
  forall v, In v c -> (email v =? cast_email e) = false
                      /\ (username v =? cast_username n) = false.
Proof.
  unfold findOne_email_or_username.
  destruct (find _ c) as [x |] eqn:Hf; [discriminate |].
  intros _ v Hin. pose proof (find_none _ _ Hf v Hin) as H.
  apply orb_false_iff in H. exact H.
Qed.

Lemma lookup_none_no_duplicate (env : Env) (body : Signup.body) (c : Collection) :
  findOne_email_or_username (Signup.email body) (Signup.username body) c = None ->
  existsb (fun v => N.eqb (_id v) (objectId env)) c = false ->
  duplicateKey (createdAccount env body) c = false.
Proof.
  intros Hlook Hfresh. pose proof (lookup_none _ _ c Hlook) as Hnone.
  clear Hlook. unfold duplicateKey. induction c as [| v c IH]; [reflexivity |].
  cbn [existsb] in *. apply orb_false_iff in Hfresh. destruct Hfresh as [Hv Hc].
  destruct (Hnone v (or_introl eq_refl)) as [He Hn].
  change (_id (createdAccount env body)) with (objectId env).
  change (username (createdAccount env body))
    with (cast_username (Signup.username body)).
  change (email (createdAccount env body)) with (cast_email (Signup.email body)).
  rewrite Hv, He, Hn. cbn [orb]. apply IH; [exact Hc |].
  intros x Hx. apply Hnone. right. exact Hx.
Qed.

Lemma replaceById_fresh (u u' : User) (c : Collection) :
  existsb (fun v => N.eqb (_id v) (_id u')) c = false -> _id u = _id u' ->
  replaceById u' (c ++ [u])%list = (c ++ [u'])%list.
Proof.
  intros Hfresh Hid. unfold replaceById. rewrite map_app. cbn [map].
  rewrite Hid, N.eqb_refl. f_equal.
  induction c as [| v c IH]; [reflexivity |].
  cbn [existsb] in Hfresh. apply orb_false_iff in Hfresh. destruct Hfresh as [Hv Hc].
  cbn [map]. rewrite Hv, (IH Hc). reflexivity.
Qed.

Lemma save_new_User_ok (env : Env) (body : Signup.body) (c : Collection) :
  validate (new_User (objectId env) (Signup.username body) (Signup.email body)
              (Signup.password body) (Signup.firstName body) (Signup.lastName body))
  = [] ->
  duplicateKey (createdAccount env body) c = false ->
  save env (new_User (objectId env) (Signup.username body) (Signup.email body)
              (Signup.password body) (Signup.firstName body) (Signup.lastName body)) c
  = Ok (inserted (createdAccount env body), (c ++ [createdAccount env body])%list).
Proof.
  intros Hval Hdup. unfold save. rewrite Hval.
  cbn [preSave new_User isModified modifiedPaths existsb String.eqb Ascii.eqb
       Bool.eqb negb orb fields password isNew assign_password markModified].
  match goal with
  | |- context [duplicateKey ?x c] => change x with (createdAccount env body)
  end.
  rewrite Hdup. reflexivity.
Qed.

(** With an [_id] no stored account has, a signup ends in exactly one of
    three ways, decided by the lookup and by the validators: 400 for a held
    email or username, a forwarded [ValidationError] naming the failing
    paths, or 201 with the new account appended to the collection.  The
    duplicate-key error of the unique indexes is never met, and nothing is
    stored in the first two cases. *)
Theorem signup_outcomes (env : Env) (body : Signup.body) (c : Collection) :
  existsb (fun v => N.eqb (_id v) (objectId env)) c = false ->
  match findOne_email_or_username (Signup.email body) (Signup.username body) c with
  | Some existing =>
      DuplicateIdentity (fst (signup env body c)) /\ snd (signup env body c) = c
  | None =>
      match validate
              (new_User (objectId env) (Signup.username body) (Signup.email body)
                 (Signup.password body) (Signup.firstName body)
                 (Signup.lastName body)) with
      | [] =>
          signup env body c
          = (Respond 201
               (Session "User registered successfully"
                  (toJSON (hydrate (registeredAccount env body)))
                  (fst (generateTokens env (objectId env)))
                  (snd (generateTokens env (objectId env)))),
             (c ++ [registeredAccount env body])%list)
      | _ :: _ => exists paths, signup env body c = (Next (ValidationError paths), c)
      end
  end.
Proof using Type bcrypt_hash_length.
  intros Hfresh.
  destruct (findOne_email_or_username _ _ c) as [existing |] eqn:Hlook.
  - unfold signup. rewrite Hlook. cbn [fst snd]. split; [| reflexivity].
    unfold DuplicateIdentity.
    destruct (email (fields existing) =? Signup.email body); [left | right];
      reflexivity.
  - destruct (validate _) as [| p paths] eqn:Hval.
    + unfold signup. rewrite Hlook.
      pose proof (save_new_User_ok env body c Hval
                    (lookup_none_no_duplicate env body c Hlook Hfresh)) as Hsave.
      rewrite Hsave.
      cbn [fields inserted].
      change (_id (createdAccount env body)) with (objectId env).
      destruct (generateTokens env (objectId env)) as [accessToken refreshToken]
        eqn:Htok.
      rewrite (save_inserted_token _ _ _ _
                 (save_new_User_valid env body c _ _ Hsave)).
      change (refreshTokens (createdAccount env body)) with (@nil RefreshToken).
      cbn [app fst snd].
      assert (Hreg : set_refreshTokens [mkRefreshToken refreshToken (now env)]
                       (createdAccount env body) = registeredAccount env body).
      { unfold registeredAccount. rewrite Htok. reflexivity. }
      rewrite Hreg. f_equal. apply replaceById_fresh; [exact Hfresh | reflexivity].
    + unfold signup. rewrite Hlook. unfold save. rewrite Hval. eexists. reflexivity.
Qed.

Lemma validate_new_In (d : Document) (p : string) :
  isNew d = true ->
  In p (validate d)
  <-> exists v, In (p, v) validators /\ v (fields d) = false.
Proof.
  intros Hnew. unfold validate. rewrite in_map_iff. split.
  - intros [[q v] [Hq Hin]]. cbn in Hq. subst q.
    apply filter_In in Hin. destruct Hin as [Hin Hv]. cbn [fst snd] in Hv.
    apply andb_true_iff in Hv. destruct Hv as [_ Hv].
    apply negb_true_iff in Hv. eauto.
  - intros [v [Hin Hv]]. exists (p, v). split; [reflexivity |].
    apply filter_In. split; [exact Hin |]. cbn [fst snd].
    unfold validated. rewrite Hnew, Hv. reflexivity.
Qed.

(** The validators see the values after the setters: a signup whose username
    has, once trimmed, fewer than 3 or more than 30 characters, whose
    password has fewer than 6, or whose lower-cased email does not match the
    pattern of the schema, is handed to [next] with a [ValidationError] and
    stores nothing. *)
Theorem signup_refuses_invalid_fields (env : Env) (body : Signup.body) (c : Collection) :
  findOne_email_or_username (Signup.email body) (Signup.username body) c = None ->
  (String.length (JS.trim (Signup.username body)) < 3)%nat
  \/ (30 < String.length (JS.trim (Signup.username body)))%nat
  \/ (String.length (Signup.password body) < 6)%nat
  \/ RegExp.test emailRegex (JS.toLowerCase (Signup.email body)) = false ->
  exists paths, signup env body c = (Next (ValidationError paths), c).
Proof using Type.
  intros Hlook Hbad.
  set (d := new_User (objectId env) (Signup.username body) (Signup.email body)
              (Signup.password body) (Signup.firstName body) (Signup.lastName body)).
  assert (Hin : exists p, In p (validate d)).
  { destruct Hbad as [Hshort | [Hlong | [Hpw | Hmail]]].
    - exists "username". apply validate_new_In; [reflexivity |].
      exists valid_username. split; [cbn; auto |].
      unfold valid_username, d. cbn [fields new_User username]. unfold cast_username.
      destruct (Nat.leb_spec 3 (String.length (JS.trim (Signup.username body))));
        [lia |]. rewrite andb_false_r. reflexivity.
    - exists "username". apply validate_new_In; [reflexivity |].
      exists valid_username. split; [cbn; auto |].
      unfold valid_username, d. cbn [fields new_User username]. unfold cast_username.
      destruct (Nat.leb_spec (String.length (JS.trim (Signup.username body))) 30);
        [lia |]. rewrite andb_false_r. reflexivity.
    - exists "password". apply validate_new_In; [reflexivity |].
      exists valid_password. split; [cbn; auto 6 |].
      unfold valid_password, d. cbn [fields new_User password].
      destruct (Nat.leb_spec 6 (String.length (Signup.password body))); [lia |].
      rewrite andb_false_r. reflexivity.
    - exists "email". apply validate_new_In; [reflexivity |].
      exists valid_email. split; [cbn; auto |].
      unfold valid_email, d. cbn [fields new_User email]. unfold cast_email.
      rewrite Hmail, andb_false_r. reflexivity. }
  destruct Hin as [p Hp]. unfold signup. rewrite Hlook. fold d. unfold save.
  destruct (validate d) as [| q paths]; [contradiction |].
  eexists. reflexivity.
Qed.

Lemma uniqueIds_same_id (u v : User) (c : Collection) :
  uniqueIds c = true -> In u c -> In v c -> _id v = _id u -> v = u.
Proof.
  intros Huniq Hu Hv Hid.
  pose proof (uniqueIds_find u c Huniq Hu) as Hfu.
  pose proof (uniqueIds_find v c Huniq Hv) as Hfv.
  rewrite Hid, Hfu in Hfv. inversion Hfv. reflexivity.
Qed.

Lemma map_replaceById {A : Type} (f : User -> A) (u u' : User) (c : Collection) :
  uniqueIds c = true -> In u c -> _id u' = _id u -> f u' = f u ->
  map f (replaceById u' c) = map f c.
Proof.
  intros Huniq Hu Hid Hf. unfold replaceById. rewrite map_map.
  apply map_ext_in. intros v Hv.
  destruct (N.eqb_spec (_id v) (_id u')) as [Heq | Hne]; [| reflexivity].
  rewrite Hid in Heq. rewrite (uniqueIds_same_id u v c Huniq Hu Hv Heq). exact Hf.
Qed.

Lemma findById_unique (u : User) (c : Collection) :
  uniqueIds c = true -> In u c -> findById (_id u) c = Some (hydrate u).
Proof.
  intros Huniq Hin. unfold findById. rewrite (uniqueIds_find u c Huniq Hin).
  reflexivity.
Qed.

(** A login with the right password on an active account whose stored
    paths pass their validators appends the issued refresh token to the
    tokens the account already has (the sessions opened earlier stay valid),
    answers 200 with the pair, and changes no other account. *)
Theorem login_appends_session
    (env : Env) (body : Login.body) (c : Collection) (u : User) :
  uniqueIds c = true ->
  findOne_email (Login.email body) c = Some (hydrate u) ->
  comparePassword (hydrate u) (Login.password body) = Ok true ->
  isActive u = true ->
  validAccount u = true ->
  let tokens := generateTokens env (_id u) in
  let c1 := snd (login env body c) in
  (exists user,
      fst (login env body c)
      = Respond 200 (Session "Login successful" user (fst tokens) (snd tokens)))
  /\ outstanding (_id u) c1 = (outstanding (_id u) c ++ [snd tokens])%list
  /\ (forall id, id <> _id u -> findById id c1 = findById id c)
  /\ option_map (fun d => otherPaths (fields d)) (findById (_id u) c1)
     = Some (otherPaths u).
Proof using Type.
  intros Huniq Hfound Hcmp Hactive Hvalid tokens c1.
  assert (Hin : In u c).
  { unfold findOne_email in Hfound. destruct (find _ c) as [v |] eqn:Hf;
      [| discriminate]. inversion Hfound. subst v.
    apply find_some in Hf. destruct Hf as [H _]. exact H. }
  pose proof (findById_unique u c Huniq Hin) as Hf.
  pose proof (login_success env body c u Hfound Hcmp Hactive Hvalid) as Hs.
  cbv zeta in Hs. fold tokens in Hs.
  set (u1 := set_refreshTokens
               (refreshTokens u ++ [mkRefreshToken (snd tokens) (now env)]) u) in *.
  assert (Hf1 : findById (_id u) c1 = Some (hydrate u1)).
  { unfold c1. rewrite Hs. cbn [snd].
    apply (findById_replaceById_same u u1 c Hf). reflexivity. }
  split; [rewrite Hs; eexists; reflexivity |]. split.
  { unfold outstanding. rewrite Hf1, Hf. unfold u1. cbn. rewrite map_app.
    reflexivity. }
  split.
  { intros id Hid. unfold c1. rewrite Hs. cbn [snd].
    apply findById_replaceById_other. exact Hid. }
  rewrite Hf1. reflexivity.
Qed.

(** Register, then log in: after a signup that answered 201, a login with the
    same password and with the email in any letter case answers 200, and the
    account then holds the refresh token of the signup followed by the one of
    the login. *)
Theorem signup_then_login
    (env env' : Env) (body : Signup.body) (email' : string) (c c1 : Collection)
    (s : nat) (m : string) (user : JS.object) (a r : string) :
  signup env body c = (Respond s (Session m user a r), c1) ->
  bcrypt_compare (Signup.password body)
    (bcrypt_hash (Signup.password body) (salt env)) = true ->
  JS.toLowerCase email' = JS.toLowerCase (Signup.email body) ->
  let tokens := generateTokens env' (objectId env) in
  let c2 := snd (login env' (Login.mkBody email' (Signup.password body)) c1) in
  (exists user',
      fst (login env' (Login.mkBody email' (Signup.password body)) c1)
      = Respond 200 (Session "Login successful" user' (fst tokens) (snd tokens)))
  /\ outstanding (objectId env) c2 = [r; snd tokens].
Proof using Type bcrypt_hash_length.
  intros Hsignup Hcmp Hcase tokens c2.
  pose proof (signup_stores_account env body c s m user a r c1 Hsignup) as [Hf1 _].
  pose proof (signup_registers_valid env body c s m user a r c1 Hsignup) as Hvalid.
  apply signup_created in Hsignup.
  destruct Hsignup as (Hlook & Hdup & Hc1 & _ & _ & Htok).
  assert (Hc1' : c1 = (c ++ [registeredAccount env body])%list).
  { rewrite Hc1. apply replaceById_fresh; [| reflexivity].
    apply (duplicateKey_false_fresh _ _ Hdup). }
  assert (Hfound : findOne_email email' c1 = Some (hydrate (registeredAccount env body))).
  { unfold findOne_email. rewrite Hc1', find_snoc.
    rewrite (find_all_false _ c).
    - unfold cast_email. rewrite Hcase. cbn [email registeredAccount].
      change (email (registeredAccount env body))
        with (JS.toLowerCase (Signup.email body)).
      rewrite String.eqb_refl. reflexivity.
    - intros v Hv. destruct (lookup_none _ _ c Hlook v Hv) as [He _].
      unfold cast_email in *. rewrite Hcase. exact He. }
  assert (Hpw : comparePassword (hydrate (registeredAccount env body))
                  (Signup.password body) = Ok true).
  { unfold comparePassword. cbn. rewrite Hcmp. reflexivity. }
  pose proof (login_success env' (Login.mkBody email' (Signup.password body)) c1
                (registeredAccount env body) Hfound Hpw eq_refl Hvalid) as Hs.
  cbv zeta in Hs.
  change (_id (registeredAccount env body)) with (objectId env) in Hs.
  fold tokens in Hs.
  split; [rewrite Hs; eexists; reflexivity |].
  unfold c2. rewrite Hs. cbn [snd]. unfold outstanding.
  change (objectId env) with (_id (registeredAccount env body)) at 1.
  rewrite (findById_replaceById_same (registeredAccount env body) _ c1 Hf1)
    by reflexivity.
  cbn. inversion Htok. reflexivity.
Qed.

(** Under unique ids, login, refresh and logout change nothing of any stored
    account but its refresh tokens: identity, password hash, role, active
    flag, lists and preferences all read as before. *)
Theorem token_routes_change_only_tokens (env : Env) (c c' : Collection) :
  uniqueIds c = true ->
  (exists refreshToken, c' = snd (refresh_token env refreshToken c))
  \/ (exists userId refreshToken, c' = snd (logout env userId refreshToken c))
  \/ (exists body, c' = snd (login env body c)) ->
  forall id,
    option_map (fun d => otherPaths (fields d)) (findById id c')
    = option_map (fun d => otherPaths (fields d)) (findById id c).
Proof using Type.
  intros Huniq Hop id.
  assert (Hrw : tokensRewritten c c').
  { destruct Hop as [[t ->] | [[uid [t ->]] | [body ->]]].
    - apply refresh_token_effect.
    - apply logout_effect.
    - apply login_effect. }
  destruct Hrw as [-> | (u & l & Hin & ->)]; [reflexivity |].
  unfold findById. rewrite find_replaceById.
  change (_id (set_refreshTokens l u)) with (_id u).
  destruct (find _ c) as [v |] eqn:Hf; [| reflexivity].
  cbn [option_map hydrate fields].
  destruct (N.eqb_spec (_id v) (_id u)) as [Heq | Hne]; [| reflexivity].
  apply find_some in Hf. destruct Hf as [Hv _].
  rewrite (uniqueIds_same_id u v c Huniq Hin Hv Heq). reflexivity.
Qed.

(** *** The collection stays well formed *)

Lemma lowerChar_idempotent (a : ascii) : JS.lowerChar (JS.lowerChar a) = JS.lowerChar a.
Proof.
  destruct a as [b0 b1 b2 b3 b4 b5 b6 b7].
  destruct b0, b1, b2, b3, b4, b5, b6, b7; reflexivity.
Qed.

Lemma toLowerCase_idempotent (s : string) :
  JS.toLowerCase (JS.toLowerCase s) = JS.toLowerCase s.
Proof.
  induction s as [| a s IH]; [reflexivity |].
  cbn [JS.toLowerCase]. rewrite lowerChar_idempotent, IH. reflexivity.
Qed.

Lemma distinct_snoc (x : string) (l : list string) :
  distinct l = true -> existsb (fun s => s =? x) l = false ->
  distinct (l ++ [x]) = true.
Proof.
  induction l as [| s l IH]; intros Hd Hx; [reflexivity |].
  cbn [distinct app existsb] in *.
  apply andb_true_iff in Hd. destruct Hd as [Hs Hl].
  apply orb_false_iff in Hx. destruct Hx as [Hsx Hlx].
  rewrite existsb_app. cbn [existsb]. rewrite Hsx.
  apply negb_true_iff in Hs. rewrite Hs. cbn. apply IH; assumption.
Qed.

Lemma forallb_snoc {A : Type} (p : A -> bool) (x : A) (l : list A) :
  forallb p (l ++ [x]) = forallb p l && p x.
Proof. rewrite forallb_app. cbn. rewrite andb_true_r. reflexivity. Qed.

Lemma forallb_as_map {A B : Type} (f : A -> B) (q : B -> bool) (l : list A) :
  forallb (fun a => q (f a)) l = forallb q (map f l).
Proof. induction l as [| a l IH]; [reflexivity |]. cbn. rewrite IH. reflexivity. Qed.

Lemma identitiesUnique_maps (c c' : Collection) :
  map email c' = map email c -> map username c' = map username c ->
  map hasPassword c' = map hasPassword c ->
  identitiesUnique c' = identitiesUnique c.
Proof.
  intros He Hn Hp. unfold identitiesUnique.
  rewrite (forallb_as_map email (fun e => e =? cast_email e) c').
  rewrite (forallb_as_map email (fun e => e =? cast_email e) c).
  rewrite (forallb_as_map hasPassword (fun b => b) c' : forallb hasPassword c' = _).
  rewrite (forallb_as_map hasPassword (fun b => b) c : forallb hasPassword c = _).
  rewrite He, Hn, Hp. reflexivity.
Qed.

Lemma tokensRewritten_identities (c c' : Collection) :
  uniqueIds c = true -> tokensRewritten c c' ->
  identitiesUnique c' = identitiesUnique c.
Proof.
  intros Huniq [-> | (u & l & Hin & ->)]; [reflexivity |].
  apply identitiesUnique_maps;
    apply (map_replaceById _ u _ c Huniq Hin); reflexivity.
Qed.

Lemma duplicateKey_false_identity (u : User) (c : Collection) :
  duplicateKey u c = false ->
  existsb (fun s => s =? email u) (map email c) = false
  /\ existsb (fun s => s =? username u) (map username c) = false.
Proof.
  unfold duplicateKey. induction c as [| v c IH]; intros H; [split; reflexivity |].
  cbn [existsb map] in *. apply orb_false_iff in H. destruct H as [Hv Hc].
  apply orb_false_iff in Hv. destruct Hv as [Hv He].
  apply orb_false_iff in Hv. destruct Hv as [_ Hn].
  destruct (IH Hc) as [IHe IHn]. rewrite He, Hn, IHe, IHn. split; reflexivity.
Qed.

(** Unique ids, unique emails and usernames, emails stored in lower case and
    a password hash on every account: a collection that has all this still
    has it after any request to signup, login, refresh or logout. *)
Theorem auth_routes_keep_collection_well_formed (env : Env) (c : Collection) :
  uniqueIds c = true -> identitiesUnique c = true ->
  (forall body,
      uniqueIds (snd (signup env body c)) = true
      /\ identitiesUnique (snd (signup env body c)) = true)
  /\ (forall body,
        uniqueIds (snd (login env body c)) = true
        /\ identitiesUnique (snd (login env body c)) = true)
  /\ (forall refreshToken,
        uniqueIds (snd (refresh_token env refreshToken c)) = true
        /\ identitiesUnique (snd (refresh_token env refreshToken c)) = true)
  /\ (forall userId refreshToken,
        uniqueIds (snd (logout env userId refreshToken c)) = true
        /\ identitiesUnique (snd (logout env userId refreshToken c)) = true).
Proof using Type.
  intros Huniq Hident.
  assert (Hrw : forall c', tokensRewritten c c' ->
                           uniqueIds c' = true /\ identitiesUnique c' = true).
  { intros c' H. split.
    - rewrite (tokensRewritten_uniqueIds c c' H). exact Huniq.
    - rewrite (tokensRewritten_identities c c' Huniq H). exact Hident. }
  split; [| split; [| split]].
  - intros body. unfold signup.
    destruct (findOne_email_or_username _ _ c) as [existing |]; [auto |].
    destruct (save env (new_User _ _ _ _ _ _) c) as [[d c'] | e] eqn:Hsave; [| auto].
    apply save_new_User in Hsave. destruct Hsave as (-> & -> & Hdup).
    pose proof (duplicateKey_false_fresh _ _ Hdup) as Hfresh.
    destruct (duplicateKey_false_identity _ _ Hdup) as [He Hn].
    assert (Hadded : forall l,
               uniqueIds
                 (c ++ [set_refreshTokens l (createdAccount env body)])%list = true
               /\ identitiesUnique
                    (c ++ [set_refreshTokens l (createdAccount env body)])%list
                  = true).
    { intros l. split; [apply uniqueIds_snoc; assumption |].
      unfold identitiesUnique in *.
      apply andb_true_iff in Hident. destruct Hident as [Hident Hpw].
      apply andb_true_iff in Hident. destruct Hident as [Hident Hcanon].
      apply andb_true_iff in Hident. destruct Hident as [Hemails Hnames].
      rewrite !map_app, !forallb_snoc. cbn [map].
      set (reg := set_refreshTokens l (createdAccount env body)).
      change (email reg) with (email (createdAccount env body)).
      change (username reg) with (username (createdAccount env body)).
      rewrite (distinct_snoc _ _ Hemails He), (distinct_snoc _ _ Hnames Hn).
      rewrite Hcanon, Hpw. cbn [andb].
      change (email (createdAccount env body)) with (cast_email (Signup.email body)).
      unfold cast_email. rewrite toLowerCase_idempotent, String.eqb_refl.
      reflexivity. }
    cbn [fields inserted].
    destruct (generateTokens env _) as [accessToken refreshToken].
    case_save env (c ++ [createdAccount env body])%list; cbn [snd].
    + rewrite <- (set_refreshTokens_same (createdAccount env body)). apply Hadded.
    + rewrite replaceById_fresh by (exact Hfresh || reflexivity). apply Hadded.
  - intros body. apply Hrw, login_effect.
  - intros t. apply Hrw, refresh_token_effect.
  - intros uid t. apply Hrw, logout_effect.
Qed.

(** *** Serialisation and the pre-save hook *)

Lemma get_delete (k k' : string) (o : JS.object) :
  JS.get k (JS.delete k' o) = if k' =? k then None else JS.get k o.
Proof.
  unfold JS.delete. induction o as [| [q v] o IH].
  - cbn. destruct (k' =? k); reflexivity.
  - cbn [filter fst]. destruct (String.eqb_spec k' q) as [-> | Hne]; cbn [negb].
    + rewrite IH. cbn [JS.get]. rewrite (String.eqb_sym k q).
      destruct (q =? k); reflexivity.
    + cbn [JS.get]. rewrite IH.
      destruct (String.eqb_spec k q) as [-> | Hkq]; [| reflexivity].
      destruct (String.eqb_spec k' q); [contradiction | reflexivity].
Qed.

(** [toJSON] removes four members and nothing else: [password],
    [refreshTokens], [passwordResetToken] and [passwordResetExpires] are
    absent from what it returns, and every other member of the document is
    there with its value; so the profile route shows the account without
    them. *)
Theorem toJSON_hides_exactly_four (d : Document) (k : string) :
  JS.get k (toJSON d)
  = (if existsb (String.eqb k)
          ["password"; "refreshTokens"; "passwordResetToken"; "passwordResetExpires"]
     then None
     else JS.get k (toObject (fields d)))
  /\ profile_get d = UserRespond 200 (Profile (toJSON d))
  /\ JS.get "email" (toJSON d) = Some (JS.JStr (email (fields d)))
  /\ JS.get "username" (toJSON d) = Some (JS.JStr (username (fields d)))
  /\ JS.get "isActive" (toJSON d) = Some (JS.JBool (isActive (fields d))).
Proof using Type.
  split.
  - unfold toJSON. cbv zeta. rewrite !get_delete. cbn [existsb].
    rewrite !(String.eqb_sym k).
    destruct ("password" =? k); [destruct ("passwordResetExpires" =? k),
      ("passwordResetToken" =? k), ("refreshTokens" =? k); reflexivity |].
    destruct ("refreshTokens" =? k); [destruct ("passwordResetExpires" =? k),
      ("passwordResetToken" =? k); reflexivity |].
    destruct ("passwordResetToken" =? k);
      [destruct ("passwordResetExpires" =? k); reflexivity |].
    destruct ("passwordResetExpires" =? k); reflexivity.
  - split; [reflexivity |].
    destruct d as [u n ld m].
    destruct u as [i un em pw fn ln img ro act rts wl fav wh pr prt pre].
    destruct pw, prt, pre; repeat split; reflexivity.
Qed.


(** *** The list routes *)

Lemma save_list (env : Env) (p : ListPath) (l : list ListItem) (u : User)
    (c : Collection) :
  validAccount (setList p l u) = true ->
  save env (assign_list p l (hydrate u)) c
  = Ok (hydrate (setList p l u), replaceById (setList p l u) c).
Proof.
  intros Hv. unfold save. rewrite validate_valid by exact Hv.
  destruct p; reflexivity.
Qed.

Lemma save_list_invalid (env : Env) (p : ListPath) (l : list ListItem) (u : User)
    (c : Collection) :
  validAccount (setList p l u) = false ->
  exists paths,
    paths <> []
    /\ save env (assign_list p l (hydrate u)) c = Throw (ValidationError paths).
Proof.
  intros Hv.
  destruct (save_invalid env (assign_list p l (hydrate u)) c eq_refl Hv) as [Hs Hne].
  eexists. split; [exact Hne | exact Hs].
Qed.

Lemma save_history (env : Env) (l : list HistoryItem) (u : User) (c : Collection) :
  validAccount (set_watchHistory l u) = true ->
  save env (assign_watchHistory l (hydrate u)) c
  = Ok (hydrate (set_watchHistory l u), replaceById (set_watchHistory l u) c).
Proof.
  intros Hv. unfold save. rewrite validate_valid by exact Hv. reflexivity.
Qed.

Lemma forallb_filter_valid {A : Type} (v q : A -> bool) (l : list A) :
  forallb v l = true -> forallb v (filter q l) = true.
Proof using Type.
  intros H. apply forallb_forall. intros i Hi. apply filter_In in Hi.
  destruct Hi as [Hi _]. revert i Hi. apply forallb_forall. exact H.
Qed.

Lemma find_sameItem_none (id type : string) (l : list ListItem) :
  find (sameItem id type) l = None <-> existsb (sameItem id type) l = false.
Proof using Type.
  induction l as [| i l IH]; [split; reflexivity |].
  cbn [find existsb]. destruct (sameItem id type i); cbn [orb]; [| exact IH].
  split; discriminate.
Qed.

(** Adding to the watchlist (or to the favorites) of a stored account whose
    paths pass their validators: an item already listed with that content id
    and type is answered 400 and nothing is written; otherwise, with one of
    the two content types, the item is appended with the date of the request
    and a GET shows it last; a type outside the enum stops at validation and
    nothing is written.  Posting the same item a second time is answered
    400. *)
Theorem list_post_effect
    (p : ListPath) (env env' : Env) (u : User) (body : Item.body) (c : Collection) :
  findById (_id u) c = Some (hydrate u) ->
  validAccount u = true ->
  let item := mkListItem (Item.contentId body) (Item.contentType body) (now env) in
  let u1 := setList p (getList p u ++ [item]) u in
  (existsb (sameItem (Item.contentId body) (Item.contentType body)) (getList p u) = true ->
   list_post p env (hydrate u) body c
   = (UserRespond 400 (Failed ("Item already in " ++ pathName p)), c))
  /\ (existsb (sameItem (Item.contentId body) (Item.contentType body)) (getList p u)
      = false ->
      isContentType (Item.contentType body) = true ->
      list_post p env (hydrate u) body c
      = (UserRespond 200 (Succeeded ("Added to " ++ pathName p)), replaceById u1 c)
      /\ list_get p (hydrate u) (replaceById u1 c)
         = UserRespond 200 (ItemList (pathName p) (getList p u ++ [item]))
      /\ list_post p env' (hydrate u1) body (replaceById u1 c)
         = (UserRespond 400 (Failed ("Item already in " ++ pathName p)),
            replaceById u1 c))
  /\ (existsb (sameItem (Item.contentId body) (Item.contentType body)) (getList p u)
      = false ->
      isContentType (Item.contentType body) = false ->
      exists paths,
        paths <> []
        /\ list_post p env (hydrate u) body c
           = (UserNext (SaveError (ValidationError paths)), c)).
Proof using Type.
  intros Hf Haccount item u1. subst item u1.
  pose proof (validAccount_getList p u Haccount) as Hvalid.
  assert (Hget : forall l, getList p (setList p l u) = l) by (destruct p; reflexivity).
  split; [| split].
  - intros Hex. unfold list_post. cbn [fields hydrate].
    destruct (find _ (getList p u)) as [existing |] eqn:Hfind; [reflexivity |].
    apply find_sameItem_none in Hfind. congruence.
  - intros Hex Htype.
    assert (Hvalid1 : forallb valid_listItem
                        (getList p u
                         ++ [mkListItem (Item.contentId body) (Item.contentType body)
                               (now env)]) = true).
    { rewrite forallb_app, Hvalid. cbn. unfold valid_listItem. cbn.
      rewrite Htype. reflexivity. }
    split; [| split].
    + unfold list_post. cbn [fields hydrate].
      apply find_sameItem_none in Hex. rewrite Hex. cbv zeta.
      rewrite (save_list env p _ u c); [reflexivity |].
      rewrite (validAccount_setList p _ u Haccount). exact Hvalid1.
    + unfold list_get. cbn [fields hydrate].
      rewrite (findById_replaceById_same u _ c Hf) by (destruct p; reflexivity).
      cbn [fields hydrate]. rewrite Hget. reflexivity.
    + unfold list_post. cbn [fields hydrate]. rewrite Hget.
      destruct (find _ (getList p u ++ _)) as [existing |] eqn:Hfind;
        [reflexivity |].
      apply find_sameItem_none in Hfind. rewrite existsb_app in Hfind.
      cbn in Hfind. unfold sameItem in Hfind. cbn in Hfind.
      rewrite !String.eqb_refl in Hfind. cbn in Hfind.
      rewrite orb_true_r in Hfind. discriminate.
  - intros Hex Htype. unfold list_post. cbn [fields hydrate].
    apply find_sameItem_none in Hex. rewrite Hex. cbv zeta.
    destruct (save_list_invalid env p
                (getList p u
                 ++ [mkListItem (Item.contentId body) (Item.contentType body) (now env)])
                u c) as (paths & Hne & Hs).
    { rewrite (validAccount_setList p _ u Haccount).
      rewrite forallb_app. cbn. unfold valid_listItem at 2. cbn.
      rewrite Htype. rewrite andb_false_r. reflexivity. }
    exists paths. split; [exact Hne |]. rewrite Hs. reflexivity.
Qed.

Lemma setList_getList (p : ListPath) (u : User) : setList p (getList p u) u = u.
Proof. destruct p, u; reflexivity. Qed.

Lemma getList_setList (p : ListPath) (l : list ListItem) (u : User) :
  getList p (setList p l u) = l.
Proof. destruct p; reflexivity. Qed.

Lemma setList_setList (p : ListPath) (l l' : list ListItem) (u : User) :
  setList p l (setList p l' u) = setList p l u.
Proof. destruct p; reflexivity. Qed.

Lemma id_setList (p : ListPath) (l : list ListItem) (u : User) :
  _id (setList p l u) = _id u.
Proof. destruct p; reflexivity. Qed.

Lemma filter_other_ids (id : string) (l : list ListItem) :
  existsb (fun i => contentId i =? id) l = false ->
  filter (fun item => negb (contentId item =? id)) l = l.
Proof.
  induction l as [| i l IH]; intros H; [reflexivity |].
  cbn [existsb] in H. apply orb_false_iff in H. destruct H as [Hi Hl].
  cbn [filter]. rewrite Hi. cbn [negb]. f_equal. exact (IH Hl).
Qed.

Lemma filter_removes_id (id : string) (l : list ListItem) :
  existsb (fun i => contentId i =? id)
    (filter (fun item => negb (contentId item =? id)) l) = false.
Proof.
  induction l as [| i l IH]; [reflexivity |].
  cbn [filter]. destruct (contentId i =? id) eqn:Hi; cbn [negb]; [exact IH |].
  cbn [existsb]. rewrite Hi, IH. reflexivity.
Qed.

Lemma no_id_no_item (id type : string) (l : list ListItem) :
  existsb (fun i => contentId i =? id) l = false ->
  existsb (sameItem id type) l = false.
Proof using Type.
  induction l as [| i l IH]; intros H; [reflexivity |].
  cbn [existsb] in *. apply orb_false_iff in H. destruct H as [Hi Hl].
  unfold sameItem at 1. rewrite Hi. cbn [andb orb]. exact (IH Hl).
Qed.

Lemma list_delete_eq (p : ListPath) (env : Env) (u : User) (id : string)
    (c : Collection) :
  validAccount u = true ->
  list_delete p env (hydrate u) id c
  = (UserRespond 200 (Succeeded ("Removed from " ++ pathName p)),
     replaceById
       (setList p (filter (fun item => negb (contentId item =? id)) (getList p u)) u)
       c).
Proof.
  intros Hvalid. unfold list_delete. cbn [fields hydrate]. cbv zeta.
  rewrite save_list; [reflexivity |].
  rewrite (validAccount_setList p _ u Hvalid).
  apply forallb_filter_valid, validAccount_getList. exact Hvalid.
Qed.

(** Removing from the watchlist (or from the favorites) of a stored account
    whose paths pass their validators keeps exactly the items whose content
    id differs from the one in the URL: the entries of that content are
    dropped for both content types at once, the rest stays in order, and a
    GET shows it.  The answer is 200 whether or not anything was listed, and
    removing again changes nothing. *)
Theorem list_delete_effect
    (p : ListPath) (env : Env) (u : User) (id : string) (c : Collection) :
  findById (_id u) c = Some (hydrate u) ->
  validAccount u = true ->
  let kept := filter (fun item => negb (contentId item =? id)) (getList p u) in
  let c1 := replaceById (setList p kept u) c in
  list_delete p env (hydrate u) id c
  = (UserRespond 200 (Succeeded ("Removed from " ++ pathName p)), c1)
  /\ list_get p (hydrate u) c1 = UserRespond 200 (ItemList (pathName p) kept)
  /\ (forall i, In i kept <-> In i (getList p u) /\ contentId i <> id)
  /\ (forall type, existsb (sameItem id type) kept = false)
  /\ (existsb (fun i => contentId i =? id) (getList p u) = false ->
      kept = getList p u)
  /\ snd (list_delete p env (hydrate (setList p kept u)) id c1) = replaceById (setList p kept u) c1.
Proof using Type.
  intros Hf Hvalid kept c1.
  assert (Hkept : validAccount (setList p kept u) = true).
  { rewrite (validAccount_setList p _ u Hvalid).
    apply forallb_filter_valid, validAccount_getList. exact Hvalid. }
  split; [apply list_delete_eq; exact Hvalid |]. split.
  { unfold list_get, c1. cbn [fields hydrate].
    rewrite (findById_replaceById_same u _ c Hf) by apply id_setList.
    cbn [fields hydrate]. rewrite getList_setList. reflexivity. }
  split.
  { intros i. unfold kept. rewrite filter_In. rewrite negb_true_iff, String.eqb_neq.
    reflexivity. }
  split.
  { intros type. apply no_id_no_item. apply filter_removes_id. }
  split.
  { intros Habsent. apply filter_other_ids. exact Habsent. }
  rewrite list_delete_eq by exact Hkept. cbn [snd].
  rewrite getList_setList, setList_setList.
  rewrite (filter_other_ids id kept (filter_removes_id id (getList p u))).
  reflexivity.
Qed.

Lemma distinctItems_snoc (i : ListItem) (l : list ListItem) :
  distinctItems l = true ->
  existsb (sameItem (contentId i) (contentType i)) l = false ->
  distinctItems (l ++ [i]) = true.
Proof.
  induction l as [| j l IH]; intros Hd Hi; [reflexivity |].
  cbn [distinctItems app existsb] in *.
  apply andb_true_iff in Hd. destruct Hd as [Hj Hl].
  apply orb_false_iff in Hi. destruct Hi as [Hji Hli].
  rewrite existsb_app. cbn [existsb]. apply negb_true_iff in Hj. rewrite Hj.
  assert (Hsym : sameItem (contentId j) (contentType j) i = false).
  { unfold sameItem in *. rewrite (String.eqb_sym (contentId i)),
      (String.eqb_sym (contentType i)). exact Hji. }
  rewrite Hsym. cbn. apply IH; assumption.
Qed.

Lemma distinctItems_filter (q : ListItem -> bool) (l : list ListItem) :
  distinctItems l = true -> distinctItems (filter q l) = true.
Proof.
  induction l as [| j l IH]; intros Hd; [reflexivity |].
  cbn [distinctItems] in Hd. apply andb_true_iff in Hd. destruct Hd as [Hj Hl].
  cbn [filter]. destruct (q j); [| exact (IH Hl)].
  cbn [distinctItems]. rewrite (IH Hl), andb_true_r.
  apply negb_true_iff. apply negb_true_iff in Hj.
  destruct (existsb _ (filter q l)) eqn:Hex; [| reflexivity].
  apply existsb_exists in Hex. destruct Hex as [x [Hx Hs]].
  apply filter_In in Hx. destruct Hx as [Hx _].
  assert (existsb (sameItem (contentId j) (contentType j)) l = true)
    by (apply existsb_exists; eauto).
  congruence.
Qed.

(** A list with no two entries for the same content id and type, and with
    valid content types, is still such a list after any add or remove
    request, whatever the request carries; the request changes no other path
    of the account. *)
Theorem list_routes_keep_lists_distinct
    (p : ListPath) (env : Env) (u : User) (c : Collection) :
  findById (_id u) c = Some (hydrate u) ->
  forallb valid_listItem (getList p u) = true ->
  distinctItems (getList p u) = true ->
  forall c1,
    (exists body, c1 = snd (list_post p env (hydrate u) body c))
    \/ (exists id, c1 = snd (list_delete p env (hydrate u) id c)) ->
    exists l,
      findById (_id u) c1 = Some (hydrate (setList p l u))
      /\ distinctItems l = true
      /\ forallb valid_listItem l = true.
Proof using Type.
  intros Hf Hvalid Hdistinct c1 [[body ->] | [id ->]].
  - unfold list_post. cbn [fields hydrate].
    destruct (find _ (getList p u)) as [existing |] eqn:Hfind.
    + exists (getList p u). rewrite setList_getList. auto.
    + apply find_sameItem_none in Hfind. cbv zeta.
      set (l := (getList p u
                 ++ [mkListItem (Item.contentId body) (Item.contentType body)
                       (now env)])%list).
      destruct (validAccount (setList p l u)) eqn:Haccount.
      * rewrite (save_list env p l u c Haccount). cbn [snd].
        exists l. split; [| split].
        -- apply (findById_replaceById_same u _ c Hf). apply id_setList.
        -- apply distinctItems_snoc; assumption.
        -- rewrite <- (getList_setList p l u).
           apply validAccount_getList. exact Haccount.
      * destruct (save_list_invalid env p l u c Haccount) as (paths & _ & Hs).
        rewrite Hs. cbn [snd].
        exists (getList p u). rewrite setList_getList. auto.
  - unfold list_delete. cbn [fields hydrate]. cbv zeta.
    set (l := filter (fun item => negb (contentId item =? id)) (getList p u)).
    destruct (validAccount (setList p l u)) eqn:Haccount.
    + rewrite (save_list env p l u c Haccount). cbn [snd].
      exists l. split; [| split].
      * apply (findById_replaceById_same u _ c Hf). apply id_setList.
      * apply distinctItems_filter. exact Hdistinct.
      * apply forallb_filter_valid. exact Hvalid.
    + destruct (save_list_invalid env p l u c Haccount) as (paths & _ & Hs).
      rewrite Hs. cbn [snd].
      exists (getList p u). rewrite setList_getList. auto.
Qed.

(** Add, then remove, on a stored account whose paths pass their
    validators: when nothing with that content id was listed, adding an item
    and removing its content id leaves the stored account exactly as it was
    before the two requests. *)
Theorem list_post_then_delete
    (p : ListPath) (env env' : Env) (u : User) (body : Item.body) (c : Collection) :
  findById (_id u) c = Some (hydrate u) ->
  validAccount u = true ->
  existsb (fun i => contentId i =? Item.contentId body) (getList p u) = false ->
  isContentType (Item.contentType body) = true ->
  exists u1 c1 c2,
    list_post p env (hydrate u) body c
    = (UserRespond 200 (Succeeded ("Added to " ++ pathName p)), c1)
    /\ findById (_id u) c1 = Some (hydrate u1)
    /\ list_delete p env' (hydrate u1) (Item.contentId body) c1
       = (UserRespond 200 (Succeeded ("Removed from " ++ pathName p)), c2)
    /\ findById (_id u) c2 = Some (hydrate u).
Proof using Type.
  intros Hf Haccount Habsent Htype.
  set (item := mkListItem (Item.contentId body) (Item.contentType body) (now env)).
  set (u1 := setList p (getList p u ++ [item]) u).
  assert (Hvalid1 : validAccount u1 = true).
  { unfold u1. rewrite (validAccount_setList p _ u Haccount).
    rewrite forallb_app, (validAccount_getList p u Haccount). cbn.
    unfold valid_listItem. cbn. rewrite Htype. reflexivity. }
  assert (Hnone : find (sameItem (Item.contentId body) (Item.contentType body))
                    (getList p u) = None).
  { apply find_all_false. intros i Hi. unfold sameItem.
    destruct (contentId i =? Item.contentId body) eqn:He; [| reflexivity].
    exfalso. assert (existsb (fun i => contentId i =? Item.contentId body)
                       (getList p u) = true) by (apply existsb_exists; eauto).
    congruence. }
  assert (Hf1 : findById (_id u) (replaceById u1 c) = Some (hydrate u1)).
  { apply (findById_replaceById_same u u1 c Hf). apply id_setList. }
  exists u1, (replaceById u1 c).
  eexists. split; [| split; [exact Hf1 | split]].
  - unfold list_post. cbn [fields hydrate]. rewrite Hnone. cbv zeta.
    fold item. rewrite (save_list env p _ u c Hvalid1). reflexivity.
  - apply list_delete_eq. exact Hvalid1.
  - unfold u1 at 1 2. rewrite getList_setList, setList_setList.
    rewrite filter_app. cbn [filter contentId item]. rewrite String.eqb_refl.
    cbn [negb]. rewrite app_nil_r, (filter_other_ids _ _ Habsent), setList_getList.
    replace (_id u) with (_id u1) by apply id_setList.
    apply (findById_replaceById_same u1 u _ ).
    + unfold u1 at 1. rewrite id_setList. exact Hf1.
    + symmetry. apply id_setList.
Qed.

(** *** The history routes *)

Lemma findIndex_setAt_upsert {A : Type} (q : A -> bool) (x : A) (l : list A) :
  match findIndex q l with
  | Some i => setAt i x l
  | None => (l ++ [x])%list
  end = upsert q x l.
Proof.
  induction l as [| y l IH]; [reflexivity |].
  cbn [findIndex upsert]. destruct (q y); [reflexivity |].
  destruct (findIndex q l) as [i |]; cbn [option_map setAt app]; rewrite <- IH;
    reflexivity.
Qed.

Lemma upsert_find {A : Type} (q : A -> bool) (x : A) (l : list A) :
  q x = true -> find q (upsert q x l) = Some x.
Proof.
  intros Hx. induction l as [| y l IH]; cbn [upsert find].
  - rewrite Hx. reflexivity.
  - destruct (q y) eqn:Hy; cbn [find]; [rewrite Hx | rewrite Hy]; auto.
Qed.

Lemma upsert_length {A : Type} (q : A -> bool) (x : A) (l : list A) :
  List.length (upsert q x l)
  = if existsb q l then List.length l else S (List.length l).
Proof.
  induction l as [| y l IH]; [reflexivity |].
  cbn [upsert existsb]. destruct (q y); cbn [orb List.length]; [reflexivity |].
  rewrite IH. destruct (existsb q l); reflexivity.
Qed.

Lemma upsert_others {A : Type} (q : A -> bool) (x : A) (l : list A) (h : A) :
  q h = false -> In h (upsert q x l) -> In h l \/ h = x.
Proof.
  intros Hh. induction l as [| y l IH]; cbn [upsert In].
  - intros [<- | []]. right. reflexivity.
  - destruct (q y) eqn:Hy; cbn [In].
    + intros [<- | Hin]; [right; reflexivity | left; right; exact Hin].
    + intros [<- | Hin]; [left; left; reflexivity |].
      destruct (IH Hin); [left; right; assumption | right; assumption].
Qed.

Lemma upsert_keeps {A : Type} (q : A -> bool) (x : A) (l : list A) (h : A) :
  q h = false -> In h l -> In h (upsert q x l).
Proof.
  intros Hh. induction l as [| y l IH]; [contradiction |].
  cbn [upsert In]. destruct (q y) eqn:Hy; cbn [In].
  - intros [<- | Hin]; [congruence | right; exact Hin].
  - intros [<- | Hin]; [left; reflexivity | right; exact (IH Hin)].
Qed.

Lemma sameEntry_sym (a b : HistoryItem) :
  sameEntry (historyContentId a) (historyContentType a) b
  = sameEntry (historyContentId b) (historyContentType b) a.
Proof.
  unfold sameEntry. rewrite (String.eqb_sym (historyContentId b)),
    (String.eqb_sym (historyContentType b)). reflexivity.
Qed.

Lemma sameEntry_trans (id type : string) (a b : HistoryItem) :
  sameEntry id type a = true ->
  sameEntry (historyContentId a) (historyContentType a) b = sameEntry id type b.
Proof.
  unfold sameEntry. intros H. apply andb_true_iff in H. destruct H as [Hi Ht].
  apply String.eqb_eq in Hi. apply String.eqb_eq in Ht. rewrite Hi, Ht.
  reflexivity.
Qed.

Lemma upsert_existsb_other (id type : string) (x h : HistoryItem)
    (l : list HistoryItem) :
  sameEntry id type x = true -> sameEntry id type h = false ->
  existsb (sameEntry (historyContentId h) (historyContentType h))
    (upsert (sameEntry id type) x l)
  = existsb (sameEntry (historyContentId h) (historyContentType h)) l.
Proof.
  intros Hx Hh.
  assert (Hxh : sameEntry (historyContentId h) (historyContentType h) x = false).
  { rewrite sameEntry_sym, (sameEntry_trans id type x h Hx). exact Hh. }
  induction l as [| y l IH]; cbn [upsert existsb].
  - rewrite Hxh. reflexivity.
  - destruct (sameEntry id type y) eqn:Hy; cbn [existsb].
    + rewrite Hxh.
      assert (Hyh : sameEntry (historyContentId h) (historyContentType h) y = false).
      { rewrite sameEntry_sym, (sameEntry_trans id type y h Hy). exact Hh. }
      rewrite Hyh. reflexivity.
    + rewrite IH. reflexivity.
Qed.

Lemma existsb_pointwise {A : Type} (f g : A -> bool) (l : list A) :
  (forall a, f a = g a) -> existsb f l = existsb g l.
Proof.
  intros H. induction l as [| a l IH]; [reflexivity |].
  cbn. rewrite H, IH. reflexivity.
Qed.

Lemma upsert_distinct (id type : string) (x : HistoryItem) (l : list HistoryItem) :
  sameEntry id type x = true ->
  distinctEntries l = true ->
  distinctEntries (upsert (sameEntry id type) x l) = true.
Proof.
  intros Hx. induction l as [| y l IH]; intros Hd; [reflexivity |].
  cbn [distinctEntries] in Hd. apply andb_true_iff in Hd. destruct Hd as [Hy Hl].
  cbn [upsert]. destruct (sameEntry id type y) eqn:Hsy; cbn [distinctEntries].
  - rewrite Hl, andb_true_r.
    assert (Hext : forall z, sameEntry (historyContentId x) (historyContentType x) z
                             = sameEntry (historyContentId y) (historyContentType y) z).
    { intros z. rewrite (sameEntry_trans id type x z Hx),
        (sameEntry_trans id type y z Hsy). reflexivity. }
    rewrite (existsb_pointwise _ _ l Hext). exact Hy.
  - rewrite (IH Hl), andb_true_r.
    rewrite (upsert_existsb_other id type x y l Hx Hsy). exact Hy.
Qed.

Lemma upsert_valid (q : HistoryItem -> bool) (x : HistoryItem) (l : list HistoryItem) :
  valid_historyItem x = true -> forallb valid_historyItem l = true ->
  forallb valid_historyItem (upsert q x l) = true.
Proof.
  intros Hx. induction l as [| y l IH]; intros Hl; cbn [upsert forallb].
  - rewrite Hx. reflexivity.
  - cbn [forallb] in Hl. apply andb_true_iff in Hl. destruct Hl as [Hy Hl].
    destruct (q y); cbn [forallb]; [rewrite Hx, Hl | rewrite Hy, (IH Hl)];
      reflexivity.
Qed.

(** Posting to the history is an upsert on content id and type: on a stored
    account whose paths pass their validators, with a content type of the
    enum and a progress between 0 and 100 (0 when absent), the route answers
    200 and stores the history with
    the first entry of that content replaced where it stood, or the new entry
    at the end.  Looking the content up then finds the posted entry, dated
    with the request; the length grows by one only for new content; the
    entries of other content are the same; and a history with one entry per
    content keeps one entry per content. *)
Theorem history_post_upserts
    (env : Env) (u : User) (body : History.body) (c : Collection) :
  findById (_id u) c = Some (hydrate u) ->
  validAccount u = true ->
  isContentType (History.contentType body) = true ->
  (forall n, History.progress body = Some n -> (0 <= n <= 100)%Z) ->
  let same := sameEntry (History.contentId body) (History.contentType body) in
  let item :=
    mkHistoryItem (History.contentId body) (History.contentType body)
      (match History.progress body with Some n => n | None => 0%Z end)
      (now env) (truthyNumber (History.seasonNumber body))
      (truthyNumber (History.episodeNumber body)) in
  let stored := upsert same item (watchHistory u) in
  history_post env (hydrate u) body c
  = (UserRespond 200 (Succeeded "Watch history updated"),
     replaceById (set_watchHistory stored u) c)
  /\ find same stored = Some item
  /\ List.length stored
     = (if existsb same (watchHistory u) then List.length (watchHistory u)
        else S (List.length (watchHistory u)))
  /\ (forall h, same h = false -> (In h stored <-> In h (watchHistory u)))
  /\ (distinctEntries (watchHistory u) = true -> distinctEntries stored = true).
Proof using Type.
  intros Hf Haccount Htype Hprogress same item stored.
  pose proof (validAccount_watchHistory u Haccount) as Hvalid.
  assert (Hsame : same item = true).
  { unfold same, sameEntry, item. cbn. rewrite !String.eqb_refl. reflexivity. }
  assert (Hitem : valid_historyItem item = true).
  { unfold valid_historyItem, item. cbn. rewrite Htype. cbn [andb].
    destruct (History.progress body) as [n |].
    - destruct (Hprogress n eq_refl) as [H0 H100].
      apply Z.leb_le in H0. apply Z.leb_le in H100. rewrite H0, H100. reflexivity.
    - reflexivity. }
  split; [| split; [| split; [| split]]].
  - unfold history_post. cbn [fields hydrate]. cbv zeta.
    fold same. fold item.
    assert (Hdoc : match findIndex same (watchHistory u) with
                   | Some i =>
                       assign_watchHistory (setAt i item (watchHistory u)) (hydrate u)
                   | None =>
                       assign_watchHistory (watchHistory u ++ [item]) (hydrate u)
                   end = assign_watchHistory stored (hydrate u)).
    { unfold stored. rewrite <- findIndex_setAt_upsert.
      destruct (findIndex same (watchHistory u)); reflexivity. }
    rewrite Hdoc. rewrite save_history; [reflexivity |].
    rewrite (validAccount_set_watchHistory _ u Haccount).
    apply upsert_valid; assumption.
  - apply upsert_find. exact Hsame.
  - apply upsert_length.
  - intros h Hh. split.
    + intros Hin. destruct (upsert_others same item _ h Hh Hin) as [H | ->];
        [exact H | congruence].
    + apply upsert_keeps. exact Hh.
  - apply upsert_distinct. exact Hsame.
Qed.

Lemma insertByLastWatched_perm (h : HistoryItem) (l : list HistoryItem) :
  Permutation (insertByLastWatched h l) (h :: l).
Proof.
  induction l as [| x l IH]; [reflexivity |].
  cbn [insertByLastWatched]. destruct (lastWatched h <? lastWatched x)%Z;
    [| reflexivity].
  rewrite IH. apply perm_swap.
Qed.

Lemma sortByLastWatched_perm (l : list HistoryItem) :
  Permutation (sortByLastWatched l) l.
Proof.
  induction l as [| h l IH]; [reflexivity |].
  cbn [sortByLastWatched fold_right]. fold (sortByLastWatched l).
  rewrite insertByLastWatched_perm. apply perm_skip. exact IH.
Qed.

Lemma insertByLastWatched_sorted (h : HistoryItem) (l : list HistoryItem) :
  Sorted laterFirst l -> Sorted laterFirst (insertByLastWatched h l).
Proof.
  induction l as [| x l IH]; intros Hs; cbn [insertByLastWatched].
  - repeat constructor.
  - destruct (Z.ltb_spec (lastWatched h) (lastWatched x)) as [Hlt | Hge].
    + inversion Hs as [| ? ? Hl Hhd]; subst. constructor; [exact (IH Hl) |].
      destruct l as [| y l]; cbn [insertByLastWatched].
      * constructor. unfold laterFirst. lia.
      * destruct (lastWatched h <? lastWatched y)%Z; constructor.
        -- inversion Hhd; assumption.
        -- unfold laterFirst. lia.
    + constructor; [exact Hs |]. constructor. unfold laterFirst. lia.
Qed.

Lemma laterFirst_trans : Relations_1.Transitive laterFirst.
Proof. intros a b d Hab Hbd. unfold laterFirst in *. lia. Qed.

Lemma sortByLastWatched_sorted (l : list HistoryItem) :
  StronglySorted laterFirst (sortByLastWatched l).
Proof.
  apply Sorted_StronglySorted; [exact laterFirst_trans |].
  induction l as [| h l IH]; [constructor |].
  cbn [sortByLastWatched fold_right]. apply insertByLastWatched_sorted. exact IH.
Qed.

Lemma StronglySorted_split {A : Type} (R : A -> A -> Prop) (l1 l2 : list A) :
  StronglySorted R (l1 ++ l2) ->
  StronglySorted R l1 /\ forall x y, In x l1 -> In y l2 -> R x y.
Proof.
  induction l1 as [| a l1 IH]; intros Hs.
  - split; [constructor | contradiction].
  - cbn [app] in Hs. inversion Hs as [| ? ? Hl Hall]; subst.
    destruct (IH Hl) as [Hs1 Hcross]. split.
    + constructor; [exact Hs1 |].
      rewrite Forall_forall in *. intros x Hx. apply Hall.
      apply in_or_app. left. exact Hx.
    + intros x y [<- | Hx] Hy.
      * rewrite Forall_forall in Hall. apply Hall. apply in_or_app. right. exact Hy.
      * apply Hcross; assumption.
Qed.

(** The history is read latest first, and what is read is the stored history
    rearranged, nothing lost or added.  When the account of the request is no
    longer stored, the read routes do not answer 404: they hand a [TypeError]
    to [next]. *)
Theorem history_get_latest_first (user : Document) (c : Collection) :
  (forall found, findById (_id (fields user)) c = Some found ->
     exists shown,
       history_get user c = UserRespond 200 (HistoryList "history" shown)
       /\ Permutation shown (watchHistory (fields found))
       /\ StronglySorted laterFirst shown)
  /\ (findById (_id (fields user)) c = None ->
      history_get user c = UserNext TypeError
      /\ continue_watching user c = UserNext TypeError
      /\ forall p, list_get p user c = UserNext TypeError).
Proof using Type.
  split.
  - intros found Hf. eexists. split; [| split].
    + unfold history_get. rewrite Hf. reflexivity.
    + apply sortByLastWatched_perm.
    + apply sortByLastWatched_sorted.
  - intros Hf. unfold history_get, continue_watching, list_get. rewrite Hf.
    auto.
Qed.

(** Continue watching shows at most 20 entries, each with a progress strictly
    between 5 and 95, latest first; together with the entries it leaves out
    they are exactly the stored entries in that range, none is left out
    unless 20 are shown, and no entry left out is later than one shown. *)
Theorem continue_watching_latest_twenty (user : Document) (c : Collection)
    (found : Document) :
  findById (_id (fields user)) c = Some found ->
  exists shown rest,
    continue_watching user c
    = UserRespond 200 (HistoryList "continueWatching" shown)
    /\ (List.length shown <= 20)%nat
    /\ (rest <> [] -> List.length shown = 20%nat)
    /\ Permutation (shown ++ rest) (filter inProgress (watchHistory (fields found)))
    /\ StronglySorted laterFirst shown
    /\ (forall x y, In x shown -> In y rest -> laterFirst x y)
    /\ (forall h, In h shown ->
          In h (watchHistory (fields found)) /\ (5 < progress h < 95)%Z).
Proof using Type.
  intros Hf.
  set (sorted := sortByLastWatched (filter inProgress (watchHistory (fields found)))).
  exists (firstn 20 sorted), (skipn 20 sorted).
  assert (Hperm : Permutation (firstn 20 sorted ++ skipn 20 sorted)
                    (filter inProgress (watchHistory (fields found)))).
  { rewrite firstn_skipn. apply sortByLastWatched_perm. }
  pose proof (sortByLastWatched_sorted
                (filter inProgress (watchHistory (fields found)))) as Hsorted.
  fold sorted in Hsorted. rewrite <- (firstn_skipn 20 sorted) in Hsorted.
  destruct (StronglySorted_split _ _ _ Hsorted) as [Hshown Hcross].
  split; [unfold continue_watching; rewrite Hf; reflexivity |].
  split; [apply firstn_le_length |].
  split.
  { intros Hrest. destruct (Nat.le_gt_cases 20 (List.length sorted)) as [Hle | Hgt].
    - apply firstn_length_le. exact Hle.
    - exfalso. apply Hrest. apply skipn_all2. lia. }
  split; [exact Hperm |]. split; [exact Hshown |]. split; [exact Hcross |].
  intros h Hh.
  assert (Hin : In h (filter inProgress (watchHistory (fields found)))).
  { apply (Permutation_in h Hperm). apply in_or_app. left. exact Hh. }
  apply filter_In in Hin. destruct Hin as [Hin Hp]. split; [exact Hin |].
  unfold inProgress in Hp. apply andb_true_iff in Hp. destruct Hp as [H5 H95].
  apply Z.ltb_lt in H5. apply Z.ltb_lt in H95. lia.
Qed.

(** Clearing the history of a stored account whose paths pass their
    validators stores the account with an empty history and nothing else
    changed; the history and continue-watching routes then show nothing. *)
Theorem history_delete_clears (env : Env) (u : User) (c : Collection) :
  findById (_id u) c = Some (hydrate u) ->
  validAccount u = true ->
  let c1 := replaceById (set_watchHistory [] u) c in
  history_delete env (hydrate u) c
  = (UserRespond 200 (Succeeded "Watch history cleared"), c1)
  /\ findById (_id u) c1 = Some (hydrate (set_watchHistory [] u))
  /\ history_get (hydrate u) c1 = UserRespond 200 (HistoryList "history" [])
  /\ continue_watching (hydrate u) c1
     = UserRespond 200 (HistoryList "continueWatching" [])
  /\ (forall id, id <> _id u -> findById id c1 = findById id c).
Proof using Type.
  intros Hf Hvalid c1.
  assert (Hf1 : findById (_id u) c1 = Some (hydrate (set_watchHistory [] u))).
  { apply (findById_replaceById_same u _ c Hf). reflexivity. }
  split; [| split; [exact Hf1 | split; [| split]]].
  - unfold history_delete. cbv zeta. rewrite save_history; [reflexivity |].
    rewrite (validAccount_set_watchHistory _ u Hvalid). reflexivity.
  - unfold history_get. cbn [fields hydrate]. rewrite Hf1. reflexivity.
  - unfold continue_watching. cbn [fields hydrate]. rewrite Hf1. reflexivity.
  - intros id Hid. apply findById_replaceById_other. exact Hid.
Qed.

(** *** Two refreshes at once *)





End Auth.

(** ** The properties at work on a small collection *)

Lemma toy_hash_length (data salt : string) :
  (6 <= String.length (Toy.hash data salt))%nat.
Proof. unfold Toy.hash. cbn. lia. Qed.

Local Abbreviation toy_signup := (signup Toy.sign Toy.hash Toy.cfg).
Local Abbreviation toy_login := (login Toy.sign Toy.hash Toy.compare Toy.cfg).
Local Abbreviation toy_refresh := (refresh_token Toy.sign Toy.verify Toy.hash Toy.cfg).
Local Abbreviation toy_logout := (logout Toy.hash).

(** Alice logs in at 1200 ms and refreshes at 1700 ms, within the same
    second: the token she presented is still honoured afterwards. *)
Lemma refresh_in_issuing_second_reissues_token_witness :
  toy_login Toy.env0 (Login.mkBody "alice@x.com" "secret1") Toy.users0
  = (Respond 200
       (Session "Login successful"
          (sessionUser
             (fst (toy_login Toy.env0 (Login.mkBody "alice@x.com" "secret1") Toy.users0)))
          "11access-key15m" Toy.aliceNew), Toy.users)
  /\ exists a c1,
    toy_refresh Toy.env1 (Some (JS.JStr Toy.aliceNew)) Toy.users
    = (Respond 200 (Tokens a Toy.aliceNew), c1)
    /\ In Toy.aliceNew (outstanding (_id Toy.alice) c1)
    /\ exists a' r' c2,
         toy_refresh Toy.env1' (Some (JS.JStr Toy.aliceNew)) c1
         = (Respond 200 (Tokens a' r'), c2).
Proof.
  split; [reflexivity |].
  apply (refresh_in_issuing_second_reissues_token Toy.sign Toy.verify Toy.hash
           Toy.cfg Toy.env1 Toy.env1' Toy.aliceNew Toy.users Toy.alice).
  - reflexivity.
  - discriminate.
  - reflexivity.
  - reflexivity.
  - reflexivity.
  - simpl. right. left. reflexivity.
  - reflexivity.
Defined.

Lemma refresh_token_rejections_witness :
  toy_refresh Toy.env1 None Toy.users = (MissingToken, Toy.users)
  /\ toy_refresh Toy.env1 (Some (JS.JStr "")) Toy.users = (MissingToken, Toy.users)
  /\ toy_refresh Toy.env1 (Some (JS.JStr "garbage")) Toy.users
     = (Next (Jwt (JsonWebTokenError "invalid signature")), Toy.users)
  /\ toy_refresh Toy.env9 (Some (JS.JStr Toy.aliceNew)) Toy.users
     = (Next (Jwt TokenExpiredError), Toy.users)
  /\ errorHandler
       (fst (toy_refresh Toy.env9 (Some (JS.JStr Toy.aliceNew)) Toy.users))
     = InvalidToken.
Proof.
  split; [| split; [| split; [| split]]].
  - apply (proj1 (refresh_token_rejections Toy.sign Toy.verify Toy.hash Toy.cfg
                    Toy.env1 None Toy.users)). reflexivity.
  - apply (proj1 (refresh_token_rejections Toy.sign Toy.verify Toy.hash Toy.cfg
                    Toy.env1 (Some (JS.JStr "")) Toy.users)). reflexivity.
  - apply (proj2 (refresh_token_rejections Toy.sign Toy.verify Toy.hash Toy.cfg
                    Toy.env1 (Some (JS.JStr "garbage")) Toy.users)); reflexivity.
  - apply (proj2 (refresh_token_rejections Toy.sign Toy.verify Toy.hash Toy.cfg
                    Toy.env9 (Some (JS.JStr Toy.aliceNew)) Toy.users));
      reflexivity.
  - apply (proj2 (refresh_token_rejections Toy.sign Toy.verify Toy.hash Toy.cfg
                    Toy.env9 (Some (JS.JStr Toy.aliceNew)) Toy.users)
             TokenExpiredError); reflexivity.
Defined.

Lemma login_failures_witness :
  toy_login Toy.env1 (Login.mkBody "nobody@x.com" "secret1") Toy.users
  = (InvalidCredentials, Toy.users)
  /\ toy_login Toy.env1 (Login.mkBody "Alice@X.com" "secret2") Toy.users
     = (InvalidCredentials, Toy.users)
  /\ toy_login Toy.env1 (Login.mkBody "carol@x.com" "secret1") Toy.users
     = (InvalidCredentials, Toy.users)
  /\ toy_login Toy.env1 (Login.mkBody "carol@x.com" "secret2") Toy.users
     = (AccountDeactivated, Toy.users).
Proof.
  split; [| split; [| split]].
  - apply (proj1 (login_failures Toy.sign Toy.hash Toy.compare Toy.cfg Toy.env1
                    (Login.mkBody "nobody@x.com" "secret1") Toy.users)).
    reflexivity.
  - apply (proj1 (proj2 (login_failures Toy.sign Toy.hash Toy.compare Toy.cfg Toy.env1
                           (Login.mkBody "Alice@X.com" "secret2") Toy.users))
             (hydrate Toy.alice)); reflexivity.
  - apply (proj1 (proj2 (login_failures Toy.sign Toy.hash Toy.compare Toy.cfg Toy.env1
                           (Login.mkBody "carol@x.com" "secret1") Toy.users))
             (hydrate Toy.carol)); reflexivity.
  - apply (proj1 (proj2 (proj2 (login_failures Toy.sign Toy.hash Toy.compare Toy.cfg
                                  Toy.env1 (Login.mkBody "carol@x.com" "secret2")
                                  Toy.users)))
             (hydrate Toy.carol)); reflexivity.
Defined.

(** Bob asks for Alice's email with capitals and is told his username is
    taken. *)
Lemma signup_email_case_variant_blames_username_witness :
  toy_signup Toy.env2 (Signup.mkBody "bob" "Alice@X.com" "secret3" "B" "O") Toy.users
  = (Respond 400 (Message "Username already taken"), Toy.users).
Proof.
  apply (signup_email_case_variant_blames_username Toy.sign Toy.hash Toy.cfg Toy.env2
           (Signup.mkBody "bob" "Alice@X.com" "secret3" "B" "O") Toy.users Toy.alice).
  - left. reflexivity.
  - reflexivity.
  - discriminate.
  - intros v [<- | [<- | []]]; discriminate.
Defined.

Lemma signup_twice_fails_second_witness :
  fst (toy_signup Toy.env2 Toy.dave Toy.users)
  = Respond 201
      (Session "User registered successfully"
         (sessionUser (fst (toy_signup Toy.env2 Toy.dave Toy.users)))
         "92access-key15m" "92refresh-key7d")
  /\ (let c1 := snd (toy_signup Toy.env2 Toy.dave Toy.users) in
      toy_signup Toy.env9 (Signup.mkBody "david" "Dave@X.COM" "secret5" "D" "F") c1
      = (Respond 400 (Message "Username already taken"), c1)
      /\ toy_signup Toy.env9 (Signup.mkBody "dave" "d@x.com" "secret5" "D" "F") c1
         = (Respond 400 (Message "Username already taken"), c1)).
Proof.
  split; [reflexivity |]. intros c1.
  assert (Hfirst : toy_signup Toy.env2 Toy.dave Toy.users
                   = (Respond 201
                        (Session "User registered successfully"
                           (sessionUser (fst (toy_signup Toy.env2 Toy.dave Toy.users)))
                           "92access-key15m" "92refresh-key7d"), c1))
    by reflexivity.
  split.
  - pose proof (signup_twice_fails_second Toy.sign Toy.hash Toy.cfg Toy.env2 Toy.env9
                  Toy.dave (Signup.mkBody "david" "Dave@X.COM" "secret5" "D" "F")
                  Toy.users c1 _ _ _ _ _ Hfirst (or_introl eq_refl)) as [_ Hkept].
    apply injective_projections; [reflexivity | exact Hkept].
  - pose proof (signup_twice_fails_second Toy.sign Toy.hash Toy.cfg Toy.env2 Toy.env9
                  Toy.dave (Signup.mkBody "dave" "d@x.com" "secret5" "D" "F")
                  Toy.users c1 _ _ _ _ _ Hfirst (or_intror eq_refl)) as [_ Hkept].
    apply injective_projections; [reflexivity | exact Hkept].
Defined.

(** Alice logs out with her newer token: the older one remains and still
    refreshes; logging out with a token nobody holds changes nothing. *)
Lemma logout_removes_only_that_token_witness :
  (let c1 := snd (toy_logout Toy.env1 (_id Toy.alice) (Some (JS.JStr Toy.aliceNew))
                    Toy.users) in
   fst (toy_logout Toy.env1 (_id Toy.alice) (Some (JS.JStr Toy.aliceNew)) Toy.users)
   = Respond 200 (Message "Logged out successfully")
   /\ outstanding (_id Toy.alice) c1 = [Toy.aliceOld]
   /\ findById (_id Toy.carol) c1 = Some (hydrate Toy.carol)
   /\ exists a r c2,
        toy_refresh Toy.env1' (Some (JS.JStr Toy.aliceOld)) c1
        = (Respond 200 (Tokens a r), c2))
  /\ toy_logout Toy.env1 (_id Toy.alice) (Some (JS.JStr "no-such-token")) Toy.users
     = (Respond 200 (Message "Logged out successfully"), Toy.users).
Proof.
  destruct (logout_removes_only_that_token Toy.sign Toy.verify Toy.hash Toy.cfg
              Toy.env1 Toy.env1' Toy.aliceOld Toy.aliceNew Toy.users Toy.alice)
    as (Hout & _ & _ & _ & Hother & Hrefresh & Habsent).
  - reflexivity.
  - reflexivity.
  - simpl. left. reflexivity.
  - simpl. right. left. reflexivity.
  - discriminate.
  - discriminate.
  - discriminate.
  - split.
    + rewrite Hout. cbn [fst snd].
      split; [reflexivity |]. split; [reflexivity |].
      split; [rewrite Hother; [reflexivity | discriminate] |].
      apply Hrefresh. reflexivity.
    + reflexivity.
Defined.

Lemma session_user_omits_password_witness :
  (exists a r,
      fst (toy_signup Toy.env2 Toy.dave Toy.users)
      = Respond 201
          (Session "User registered successfully"
             (sessionUser (fst (toy_signup Toy.env2 Toy.dave Toy.users))) a r))
  /\ JS.get "password" (sessionUser (fst (toy_signup Toy.env2 Toy.dave Toy.users)))
     = None
  /\ (exists a r,
        fst (toy_login Toy.env2 (Login.mkBody "alice@x.com" "secret1") Toy.users)
        = Respond 200
            (Session "Login successful"
               (sessionUser
                  (fst (toy_login Toy.env2 (Login.mkBody "alice@x.com" "secret1")
                          Toy.users))) a r))
  /\ JS.get "password"
       (sessionUser
          (fst (toy_login Toy.env2 (Login.mkBody "alice@x.com" "secret1") Toy.users)))
     = None.
Proof.
  split; [eexists _, _; reflexivity |].
  split.
  - eapply (proj1 (session_user_omits_password Toy.sign Toy.hash Toy.compare Toy.cfg
                     Toy.env2 Toy.users _ _ _ _ _ _) Toy.dave).
    reflexivity.
  - split; [eexists _, _; reflexivity |].
    eapply (proj1 (proj2 (session_user_omits_password Toy.sign Toy.hash Toy.compare
                            Toy.cfg Toy.env2 Toy.users _ _ _ _ _ _))
              (Login.mkBody "alice@x.com" "secret1")).
    reflexivity.
Defined.

(** Carol is deactivated: her token still refreshes, her password no longer
    logs her in. *)
Lemma refresh_ignores_active_flag_witness :
  isActive Toy.carol = false
  /\ fst (toy_refresh Toy.env2 (Some (JS.JStr Toy.carolToken)) Toy.users)
     = Respond 200 (Tokens "22access-key15m" "22refresh-key7d")
  /\ toy_login Toy.env2 (Login.mkBody "carol@x.com" "secret2") Toy.users
     = (AccountDeactivated, Toy.users).
Proof.
  split; [reflexivity |].
  destruct (refresh_ignores_active_flag Toy.sign Toy.verify Toy.hash Toy.compare
              Toy.cfg Toy.env2 Toy.env2 Toy.carolToken
              (Login.mkBody "carol@x.com" "secret2") Toy.users Toy.carol)
    as [[Hrefresh _] Hlogin].
  - reflexivity.
  - reflexivity.
  - reflexivity.
  - simpl. left. reflexivity.
  - discriminate.
  - reflexivity.
  - reflexivity.
  - reflexivity.
  - split; [exact Hrefresh | exact Hlogin].
Defined.

(** Dave signs up, logs in and refreshes: the stored hash is the one of the
    first save throughout, and his password is accepted against it. *)
Lemma password_hashed_once_and_kept_witness :
  let c1 := snd (toy_signup Toy.env2 Toy.dave Toy.users) in
  let c2 := snd (toy_login Toy.env9 (Login.mkBody "dave@x.com" "secret4") c1) in
  storedPassword (objectId Toy.env2) c1 = Some (Toy.hash "secret4" "gh")
  /\ (exists d, findById (objectId Toy.env2) c1 = Some d
               /\ comparePassword Toy.compare d "secret4" = Ok true)
  /\ outstanding (objectId Toy.env2) c2 = ["92refresh-key7d"; "99refresh-key7d"]
  /\ storedPassword (objectId Toy.env2) c2 = Some (Toy.hash "secret4" "gh").
Proof.
  intros c1 c2.
  destruct (password_hashed_once_and_kept Toy.sign Toy.verify Toy.hash Toy.compare
              Toy.cfg Toy.env2 Toy.users) as [Hsignup _].
  destruct (Hsignup Toy.dave 201
              "User registered successfully"
              (sessionUser (fst (toy_signup Toy.env2 Toy.dave Toy.users)))
              "92access-key15m" "92refresh-key7d" c1 eq_refl) as [Hstored Haccepted].
  destruct (password_hashed_once_and_kept Toy.sign Toy.verify Toy.hash Toy.compare
              Toy.cfg Toy.env9 c1) as [_ Hkept].
  destruct (Hkept eq_refl c2) as [_ Hsame].
  { right. right. exists (Login.mkBody "dave@x.com" "secret4"). reflexivity. }
  split; [exact Hstored |].
  split; [apply Haccepted; reflexivity |].
  split; [reflexivity |].
  rewrite Hsame. exact Hstored.
Defined.

(** ** Further properties at work *)

Local Abbreviation toy_list_post := (list_post Toy.hash).
Local Abbreviation toy_list_delete := (list_delete Toy.hash).
Local Abbreviation toy_history_post := (history_post Toy.hash).
Local Abbreviation toy_history_delete := (history_delete Toy.hash).

(** Alice logs out of every session: her older token no longer refreshes. *)
Lemma logout_without_token_revokes_all_witness :
  toy_logout Toy.env1 (_id Toy.alice) None Toy.users
  = (Respond 200 (Message "Logged out successfully"),
     [set_refreshTokens [] Toy.alice; Toy.carol])
  /\ toy_refresh Toy.env1' (Some (JS.JStr Toy.aliceOld))
       [set_refreshTokens [] Toy.alice; Toy.carol]
     = (InvalidToken, [set_refreshTokens [] Toy.alice; Toy.carol]).
Proof.
  destruct (logout_without_token_revokes_all Toy.sign Toy.verify Toy.hash Toy.cfg
              Toy.env1 Toy.env1' None Toy.users Toy.alice eq_refl eq_refl eq_refl)
    as (Hout & _ & _ & Hrefused).
  split; [exact Hout |].
  apply (Hrefused Toy.aliceOld); [discriminate | reflexivity].
Defined.

(** Nobody has the id 9; Alice is stored and valid; an account stored with
    a username of two characters cannot log out. *)
Lemma logout_outcomes_witness :
  toy_logout Toy.env1 9%N None Toy.users = (AccountNotFound, Toy.users)
  /\ fst (toy_logout Toy.env1 1%N (Some (JS.JStr "no-such-token")) Toy.users)
     = Respond 200 (Message "Logged out successfully")
  /\ (exists paths,
        paths <> []
        /\ toy_logout Toy.env1 4%N None [Toy.alice; Sample.al]
           = (Next (ValidationError paths), [Toy.alice; Sample.al]))
  /\ findById 2%N (snd (toy_logout Toy.env1 1%N None Toy.users))
     = findById 2%N Toy.users.
Proof.
  split; [| split; [| split]].
  - apply (proj1 (logout_outcomes Toy.hash Toy.env1 9%N None Toy.users)).
    reflexivity.
  - apply (proj1 (proj1 (proj2 (logout_outcomes Toy.hash Toy.env1 1%N
                                  (Some (JS.JStr "no-such-token")) Toy.users))
                    Toy.alice eq_refl)).
    reflexivity.
  - apply (proj2 (proj1 (proj2 (logout_outcomes Toy.hash Toy.env1 4%N None
                                  [Toy.alice; Sample.al]))
                    Sample.al eq_refl)).
    reflexivity.
  - apply (proj2 (proj2 (logout_outcomes Toy.hash Toy.env1 1%N None Toy.users))).
    discriminate.
Defined.

(** Alice refreshes her older token a second later than it was issued. *)
Lemma refresh_rotation_single_use_witness :
  fst (toy_refresh Toy.env2 (Some (JS.JStr Toy.aliceOld)) Toy.users)
  = Respond 200 (Tokens "12access-key15m" "12refresh-key7d")
  /\ outstanding 1%N (snd (toy_refresh Toy.env2 (Some (JS.JStr Toy.aliceOld)) Toy.users))
     = [Toy.aliceNew; "12refresh-key7d"]
  /\ toy_refresh Toy.env2 (Some (JS.JStr Toy.aliceOld))
       (snd (toy_refresh Toy.env2 (Some (JS.JStr Toy.aliceOld)) Toy.users))
     = (InvalidToken,
        snd (toy_refresh Toy.env2 (Some (JS.JStr Toy.aliceOld)) Toy.users)).
Proof.
  destruct (refresh_rotation_single_use Toy.sign Toy.verify Toy.hash Toy.cfg
              Toy.env2 Toy.env2 Toy.aliceOld Toy.users Toy.alice)
    as (Hanswer & _ & _ & _ & Hrefused).
  - discriminate.
  - reflexivity.
  - reflexivity.
  - reflexivity.
  - reflexivity.
  - simpl. left. reflexivity.
  - discriminate.
  - split; [exact Hanswer |]. split; [reflexivity | exact Hrefused].
Defined.

Lemma failed_requests_write_nothing_witness :
  snd (toy_login Toy.env1 (Login.mkBody "alice@x.com" "guess") Toy.users) = Toy.users
  /\ snd (toy_refresh Toy.env9 (Some (JS.JStr Toy.aliceOld)) Toy.users) = Toy.users.
Proof.
  destruct (failed_requests_write_nothing Toy.sign Toy.verify Toy.hash Toy.compare
              toy_hash_length Toy.cfg Toy.env1 Toy.users) as (_ & Hlogin & _).
  destruct (failed_requests_write_nothing Toy.sign Toy.verify Toy.hash Toy.compare
              toy_hash_length Toy.cfg Toy.env9 Toy.users) as (_ & _ & Hrefresh & _).
  split; [apply Hlogin | apply Hrefresh]; reflexivity.
Defined.

Lemma signup_outcomes_witness :
  toy_signup Toy.env2 Toy.dave Toy.users
  = (Respond 201
       (Session "User registered successfully"
          (toJSON (hydrate (registeredAccount Toy.sign Toy.hash Toy.cfg Toy.env2 Toy.dave)))
          "92access-key15m" "92refresh-key7d"),
     [Toy.alice; Toy.carol;
      registeredAccount Toy.sign Toy.hash Toy.cfg Toy.env2 Toy.dave]).
Proof.
  exact (signup_outcomes Toy.sign Toy.hash toy_hash_length Toy.cfg Toy.env2 Toy.dave
           Toy.users eq_refl).
Defined.

(** A username of five characters that trims to one, and an email the
    pattern of the schema refuses. *)
Lemma signup_refuses_invalid_fields_witness :
  (exists paths,
      toy_signup Toy.env2 (Signup.mkBody "  a  " "a@x.com" "secret9" "A" "B") Toy.users
      = (Next (ValidationError paths), Toy.users))
  /\ (exists paths,
        toy_signup Toy.env2 (Signup.mkBody "frank" "frank@x.info" "secret9" "F" "K")
          Toy.users
        = (Next (ValidationError paths), Toy.users)).
Proof.
  split.
  - apply (signup_refuses_invalid_fields Toy.sign Toy.hash Toy.cfg Toy.env2
             (Signup.mkBody "  a  " "a@x.com" "secret9" "A" "B") Toy.users).
    + reflexivity.
    + left. apply Nat.ltb_lt. reflexivity.
  - apply (signup_refuses_invalid_fields Toy.sign Toy.hash Toy.cfg Toy.env2
             (Signup.mkBody "frank" "frank@x.info" "secret9" "F" "K") Toy.users).
    + reflexivity.
    + right. right. right. reflexivity.
Defined.

Lemma login_appends_session_witness :
  outstanding 1%N
    (snd (toy_login Toy.env0 (Login.mkBody "alice@x.com" "secret1") Toy.users0))
  = [Toy.aliceOld; Toy.aliceNew].
Proof.
  destruct (login_appends_session Toy.sign Toy.hash Toy.compare Toy.cfg Toy.env0
              (Login.mkBody "alice@x.com" "secret1") Toy.users0 Toy.alice0
              eq_refl eq_refl eq_refl eq_refl eq_refl) as (_ & Hout & _).
  exact Hout.
Defined.

Lemma signup_then_login_witness :
  outstanding 9%N
    (snd (toy_login Toy.env9 (Login.mkBody "DAVE@x.com" "secret4")
            (snd (toy_signup Toy.env2 Toy.dave Toy.users))))
  = ["92refresh-key7d"; "99refresh-key7d"].
Proof.
  destruct (signup_then_login Toy.sign Toy.hash Toy.compare toy_hash_length Toy.cfg
              Toy.env2 Toy.env9
              Toy.dave "DAVE@x.com" Toy.users
              (snd (toy_signup Toy.env2 Toy.dave Toy.users)) 201
              "User registered successfully"
              (sessionUser (fst (toy_signup Toy.env2 Toy.dave Toy.users)))
              "92access-key15m" "92refresh-key7d" eq_refl eq_refl eq_refl)
    as [_ Hout].
  exact Hout.
Defined.

Lemma token_routes_change_only_tokens_witness :
  option_map (fun d => otherPaths (fields d))
    (findById 1%N (snd (toy_refresh Toy.env2 (Some (JS.JStr Toy.aliceOld)) Toy.users)))
  = Some (otherPaths Toy.alice).
Proof.
  rewrite (token_routes_change_only_tokens Toy.sign Toy.verify Toy.hash Toy.compare
             Toy.cfg Toy.env2 Toy.users
             (snd (toy_refresh Toy.env2 (Some (JS.JStr Toy.aliceOld)) Toy.users))
             eq_refl).
  - reflexivity.
  - left. exists (Some (JS.JStr Toy.aliceOld)). reflexivity.
Defined.

Lemma auth_routes_keep_collection_well_formed_witness :
  uniqueIds Sample.users = true
  /\ identitiesUnique Sample.users = true
  /\ uniqueIds (snd (toy_signup Toy.env2 Toy.dave Sample.users)) = true
  /\ identitiesUnique (snd (toy_signup Toy.env2 Toy.dave Sample.users)) = true.
Proof.
  split; [reflexivity |]. split; [reflexivity |].
  destruct (auth_routes_keep_collection_well_formed Toy.sign Toy.verify Toy.hash
              Toy.compare Toy.cfg Toy.env2 Sample.users eq_refl eq_refl)
    as (Hsignup & _).
  exact (Hsignup Toy.dave).
Defined.


(** Erin adds to her watchlist: what she has, something new, and something
    of a type the schema does not know. *)
Lemma list_post_effect_witness :
  toy_list_post Watchlist Toy.env2 (hydrate Sample.erin)
    (Item.mkBody "tt001" "movie") Sample.users
  = (UserRespond 400 (Failed "Item already in watchlist"), Sample.users)
  /\ fst (toy_list_post Watchlist Toy.env2 (hydrate Sample.erin)
            (Item.mkBody "tt003" "tv") Sample.users)
     = UserRespond 200 (Succeeded "Added to watchlist")
  /\ list_get Watchlist (hydrate Sample.erin)
       (snd (toy_list_post Watchlist Toy.env2 (hydrate Sample.erin)
               (Item.mkBody "tt003" "tv") Sample.users))
     = UserRespond 200
         (ItemList "watchlist"
            [mkListItem "tt001" "movie" 100; mkListItem "tt001" "tv" 200;
             mkListItem "tt002" "movie" 300; mkListItem "tt003" "tv" 2400])
  /\ exists paths,
       paths <> []
       /\ toy_list_post Favorites Toy.env2 (hydrate Sample.erin)
            (Item.mkBody "tt003" "book") Sample.users
          = (UserNext (SaveError (ValidationError paths)), Sample.users).
Proof.
  destruct (list_post_effect Toy.hash Watchlist Toy.env2 Toy.env9 Sample.erin
              (Item.mkBody "tt001" "movie") Sample.users eq_refl eq_refl)
    as (Hlisted & _).
  destruct (list_post_effect Toy.hash Watchlist Toy.env2 Toy.env9 Sample.erin
              (Item.mkBody "tt003" "tv") Sample.users eq_refl eq_refl)
    as (_ & Hnew & _).
  destruct (list_post_effect Toy.hash Favorites Toy.env2 Toy.env9 Sample.erin
              (Item.mkBody "tt003" "book") Sample.users eq_refl eq_refl)
    as (_ & _ & Hinvalid).
  destruct (Hnew eq_refl eq_refl) as (Hadded & Hget & _).
  split; [exact (Hlisted eq_refl) |].
  split; [rewrite Hadded; reflexivity |].
  split; [rewrite Hadded; exact Hget |].
  exact (Hinvalid eq_refl eq_refl).
Defined.

(** Removing content [tt001] takes the movie and the show off the list. *)
Lemma list_delete_effect_witness :
  fst (toy_list_delete Watchlist Toy.env2 (hydrate Sample.erin) "tt001" Sample.users)
  = UserRespond 200 (Succeeded "Removed from watchlist")
  /\ list_get Watchlist (hydrate Sample.erin)
       (snd (toy_list_delete Watchlist Toy.env2 (hydrate Sample.erin) "tt001"
               Sample.users))
     = UserRespond 200 (ItemList "watchlist" [mkListItem "tt002" "movie" 300]).
Proof.
  destruct (list_delete_effect Toy.hash Watchlist Toy.env2 Sample.erin "tt001"
              Sample.users eq_refl eq_refl) as (Hdeleted & Hget & _).
  rewrite Hdeleted. split; [reflexivity | exact Hget].
Defined.

Lemma list_routes_keep_lists_distinct_witness :
  exists l,
    findById 3%N
      (snd (toy_list_post Watchlist Toy.env2 (hydrate Sample.erin)
              (Item.mkBody "tt003" "tv") Sample.users))
    = Some (hydrate (setList Watchlist l Sample.erin))
    /\ distinctItems l = true
    /\ forallb valid_listItem l = true.
Proof.
  apply (list_routes_keep_lists_distinct Toy.hash Watchlist Toy.env2 Sample.erin
           Sample.users eq_refl eq_refl eq_refl).
  left. exists (Item.mkBody "tt003" "tv"). reflexivity.
Defined.

Lemma list_post_then_delete_witness :
  exists u1 c1 c2,
    toy_list_post Favorites Toy.env2 (hydrate Sample.erin)
      (Item.mkBody "tt009" "movie") Sample.users
    = (UserRespond 200 (Succeeded "Added to favorites"), c1)
    /\ findById 3%N c1 = Some (hydrate u1)
    /\ toy_list_delete Favorites Toy.env9 (hydrate u1) "tt009" c1
       = (UserRespond 200 (Succeeded "Removed from favorites"), c2)
    /\ findById 3%N c2 = Some (hydrate Sample.erin).
Proof.
  exact (list_post_then_delete Toy.hash Favorites Toy.env2 Toy.env9 Sample.erin
           (Item.mkBody "tt009" "movie") Sample.users
           eq_refl eq_refl eq_refl eq_refl).
Defined.

(** Erin watches more of [tt003]: the entry is replaced where it stood. *)
Lemma history_post_upserts_witness :
  fst (toy_history_post Toy.env9 (hydrate Sample.erin)
         (History.mkBody "tt003" "movie" (Some 60%Z) None (Some 0%Z)) Sample.users)
  = UserRespond 200 (Succeeded "Watch history updated")
  /\ history_get (hydrate Sample.erin)
       (snd (toy_history_post Toy.env9 (hydrate Sample.erin)
               (History.mkBody "tt003" "movie" (Some 60%Z) None (Some 0%Z))
               Sample.users))
     = UserRespond 200
         (HistoryList "history"
            [Sample.entry "tt003" "movie" 60 9100; Sample.entry "tt004" "tv" 5 4000;
             Sample.entry "tt002" "tv" 97 3000; Sample.entry "tt001" "movie" 50 1000]).
Proof.
  destruct (history_post_upserts Toy.hash Toy.env9 Sample.erin
              (History.mkBody "tt003" "movie" (Some 60%Z) None (Some 0%Z))
              Sample.users eq_refl eq_refl eq_refl) as (Hpost & _).
  - intros n Hn. inversion Hn. lia.
  - rewrite Hpost. split; reflexivity.
Defined.

Lemma history_get_latest_first_witness :
  (exists shown,
      history_get (hydrate Sample.erin) Sample.users
      = UserRespond 200 (HistoryList "history" shown)
      /\ Permutation shown (watchHistory Sample.erin)
      /\ StronglySorted laterFirst shown)
  /\ history_get (hydrate Sample.erin) Toy.users = UserNext TypeError.
Proof.
  split.
  - apply (proj1 (history_get_latest_first (hydrate Sample.erin) Sample.users)
             (hydrate Sample.erin)).
    reflexivity.
  - apply (proj2 (history_get_latest_first (hydrate Sample.erin) Toy.users)).
    reflexivity.
Defined.

Lemma continue_watching_latest_twenty_witness :
  continue_watching (hydrate Sample.erin) Sample.users
  = UserRespond 200
      (HistoryList "continueWatching"
         [Sample.entry "tt003" "movie" 10 2000; Sample.entry "tt001" "movie" 50 1000])
  /\ exists shown rest,
       continue_watching (hydrate Sample.erin) Sample.users
       = UserRespond 200 (HistoryList "continueWatching" shown)
       /\ (List.length shown <= 20)%nat
       /\ (rest <> [] -> List.length shown = 20%nat)
       /\ Permutation (shown ++ rest) (filter inProgress (watchHistory Sample.erin))
       /\ StronglySorted laterFirst shown
       /\ (forall x y, In x shown -> In y rest -> laterFirst x y)
       /\ (forall h, In h shown ->
             In h (watchHistory Sample.erin) /\ (5 < progress h < 95)%Z).
Proof.
  split; [reflexivity |].
  exact (continue_watching_latest_twenty (hydrate Sample.erin) Sample.users
           (hydrate Sample.erin) eq_refl).
Defined.

Lemma history_delete_clears_witness :
  toy_history_delete Toy.env2 (hydrate Sample.erin) Sample.users
  = (UserRespond 200 (Succeeded "Watch history cleared"),
     [Toy.alice; Toy.carol; set_watchHistory [] Sample.erin])
  /\ continue_watching (hydrate Sample.erin)
       [Toy.alice; Toy.carol; set_watchHistory [] Sample.erin]
     = UserRespond 200 (HistoryList "continueWatching" []).
Proof.
  destruct (history_delete_clears Toy.hash Toy.env2 Sample.erin Sample.users
              eq_refl eq_refl)
    as (Hdeleted & _ & _ & Hcontinue & _).
  split; [exact Hdeleted | exact Hcontinue].
Defined.

(** ** Two refreshes at once, at work *)

